(** * csv2xml: the table-to-XML serializer and its round-trip verifier

    A shallow embedding of [app.py]: [clean_column_name], [clean_data],
    [convert_df_to_pretty_xml], [test_conversion_accuracy] and what [main]
    does with an uploaded file, together with
    the parts of the Python library they call ([re.sub], [str.replace],
    [html.escape], ElementTree's serializer and tree builder, minidom's
    pretty printer and the tokenizer underneath both parsers).

    A Python [str] is a Rocq [string]; each [ascii] stands for the code point
    of the same number (U+0000 to U+00FF).  UTF-8 encoding and decoding are
    inverse to each other on the texts handled here, so a byte buffer holds
    the text it encodes. *)

From Stdlib Require Import Ascii String ZArith DecimalString.
From stdpp Require Import gmap strings list.

Local Open Scope stdpp_scope.

(** ** Characters *)

Module Char.

Definition code (c : ascii) : nat := nat_of_ascii c.

Definition between (lo hi : nat) (c : ascii) : bool :=
  (lo <=? code c) && (code c <=? hi).

Definition QUOT : ascii := "034"%char.
Definition APOS : ascii := "039"%char.
Definition LF : ascii := "010"%char.
Definition CR : ascii := "013"%char.

(** [str.isalnum] on one character, as Python's Unicode tables give it for
    the code points below 256: the ASCII letters and digits, the Latin-1
    letters, and the superscript digits, ordinal indicators, micro sign and
    vulgar fractions. *)
Definition isalnum (c : ascii) : bool :=
  between 48 57 c || between 65 90 c || between 97 122 c
  || (code c =? 170) || between 178 179 c || (code c =? 181)
  || between 185 186 c || between 188 190 c
  || between 192 214 c || between 216 246 c || between 248 255 c.

(** The class [\w] of [re] on a [str] pattern: alphanumeric or underscore. *)
Definition is_word (c : ascii) : bool :=
  isalnum c || (code c =? 95).

(** XML white space. *)
Definition is_space (c : ascii) : bool :=
  (code c =? 32) || (code c =? 9) || (code c =? 10) || (code c =? 13).

(** XML 1.0 [Char]: below U+0020 only tab, line feed and carriage return. *)
Definition is_xml_char (c : ascii) : bool :=
  (32 <=? code c) || (code c =? 9) || (code c =? 10) || (code c =? 13).

(** First character of an XML name (no colon: the parsers are namespace
    aware and no tag written by the serializer has a prefix). *)
Definition is_name_start (c : ascii) : bool :=
  between 65 90 c || between 97 122 c || (code c =? 95)
  || between 192 214 c || between 216 246 c || between 248 255 c.

Definition is_name_char (c : ascii) : bool :=
  is_name_start c || between 48 57 c
  || (code c =? 45) || (code c =? 46) || (code c =? 183).

(** The ASCII digits, and the code points below 128. *)
Definition is_digit (c : ascii) : bool := between 48 57 c.

Definition is_ascii (c : ascii) : bool := code c <? 128.

End Char.

(** ** Strings *)

Module Str.

Fixpoint forallb (p : ascii → bool) (s : string) : bool :=
  match s with
  | EmptyString => true
  | String c s' => p c && forallb p s'
  end.

Definition is_empty (s : string) : bool :=
  match s with EmptyString => true | String _ _ => false end.

(** [s.replace(old, new)] for a one-character [old], the only form the
    program and the library routines below use. *)
Fixpoint replace (old : ascii) (new : string) (s : string) : string :=
  match s with
  | EmptyString => EmptyString
  | String c s' =>
      if Ascii.eqb c old then new +:+ replace old new s'
      else String c (replace old new s')
  end.

(** The character [x] does not occur in [s]. *)
Definition lacks (x : ascii) (s : string) : bool :=
  forallb (λ c, negb (Ascii.eqb c x)) s.

(** [s[:n]] *)
Fixpoint take (n : nat) (s : string) : string :=
  match n, s with
  | S n', String c s' => String c (take n' s')
  | _, _ => EmptyString
  end.

(** [s[n:]] *)
Fixpoint drop (n : nat) (s : string) : string :=
  match n, s with
  | O, _ => s
  | S n', String _ s' => drop n' s'
  | S _, EmptyString => EmptyString
  end.

Fixpoint concat (l : list string) : string :=
  match l with
  | [] => EmptyString
  | s :: l' => s +:+ concat l'
  end.

(** [str(n)] for a natural number and for an integer. *)
Definition of_nat (n : nat) : string := NilZero.string_of_uint (Nat.to_uint n).
Definition of_Z (z : Z) : string := NilZero.string_of_int (Z.to_int z).

(** Removal of trailing XML white space. *)
Fixpoint rstrip (s : string) : string :=
  match s with
  | EmptyString => EmptyString
  | String c s' =>
      let r := rstrip s' in
      if is_empty r && Char.is_space c then EmptyString else String c r
  end.

(** Splits off the last character. *)
Fixpoint unsnoc (s : string) : option (string * ascii) :=
  match s with
  | EmptyString => None
  | String c s' =>
      match unsnoc s' with
      | None => Some (EmptyString, c)
      | Some (i, l) => Some (String c i, l)
      end
  end.


End Str.

(** ** [clean_column_name] *)

(** [re.sub(r"\W+", "_", name)]: scanning from the left, every maximal run of
    characters outside [\w] is one match of [\W+] and is replaced by one
    underscore; [in_run] records that the previous character belonged to
    the match being replaced. *)
Fixpoint re_sub_nonword (in_run : bool) (s : string) : string :=
  match s with
  | EmptyString => EmptyString
  | String c s' =>
      if Char.is_word c then String c (re_sub_nonword false s')
      else if in_run then re_sub_nonword true s'
      else String "_" (re_sub_nonword true s')
  end.

Definition clean_column_name (name : string) : string :=
  re_sub_nonword false name.

(** ** Cell values and [clean_data] *)

(** The scalars a cell holds.  [VOther] is any scalar that is not a [str] and
    whose text form is not computed here (a float, a timestamp): it carries
    the result of Python's [str] on it. *)
Inductive value :=
| VStr (s : string)
| VInt (z : Z)
| VBool (b : bool)
| VNaN
| VOther (repr : string).

Global Instance value_eq_dec : EqDecision value.
Proof. solve_decision. Defined.

(** [str(v)] *)
Definition py_str (v : value) : string :=
  match v with
  | VStr s => s
  | VInt z => Str.of_Z z
  | VBool true => "True"
  | VBool false => "False"
  | VNaN => "nan"
  | VOther r => r
  end.

Definition clean_data (v : value) : value :=
  match v with
  | VStr s =>
      VStr (Str.replace ">" "&gt;"
             (Str.replace "<" "&lt;"
               (Str.replace "&" "&amp;" s)))
  | _ => v
  end.

(** [html.escape(s)] with its default [quote=True]. *)
Definition html_escape (s : string) : string :=
  let s := Str.replace "&" "&amp;" s in
  let s := Str.replace "<" "&lt;" s in
  let s := Str.replace ">" "&gt;" s in
  let s := Str.replace Char.QUOT "&quot;" s in
  let s := Str.replace Char.APOS "&#x27;" s in
  s.

(** ** Tables *)

(** A DataFrame with the default index 0..N-1: column labels and rows of
    cells, each cell being the scalar that [iterrows] hands on for it.  [wf]
    is the invariant pandas maintains (every row has one cell per column). *)
Record DataFrame := mkDataFrame {
  columns : list string;
  rows : list (list value)
}.

Global Instance DataFrame_eq_dec : EqDecision DataFrame.
Proof. solve_decision. Defined.

Definition wf (df : DataFrame) : Prop :=
  Forall (λ r : list value, length r = length (columns df)) (rows df).

(** A row as [iterrows] yields it: the cells under their labels. *)
Definition Series := list (string * value).

Definition iterrows (df : DataFrame) : list (nat * Series) :=
  imap (λ i r, (i, zip (columns df) r)) (rows df).

(** [row[key]] for a label that names one cell of the row; [None] stands for
    KeyError.  (A label that names several cells selects a sub-series in
    pandas; the statements below are about tables whose labels are
    distinct.) *)
Fixpoint Series_getitem (row : Series) (key : string) : option value :=
  match row with
  | [] => None
  | (k, v) :: row' => if decide (k = key) then Some v else Series_getitem row' key
  end.

(** [df.applymap(f)]: a new table, the argument is not changed.  pandas
    builds each column of the new table from the mapped cells and chooses
    the type of the column anew; a column that holds a string keeps every
    cell as [f] returned it, which is what this definition renders.  (A
    column of numbers alone may get another type and its cells another text
    form: an integer beside a missing value becomes a float.  The
    statements that compare the text the converter writes with the cells of
    the caller's table are therefore about tables of strings,
    [string_cells].) *)
Definition applymap (f : value → value) (df : DataFrame) : DataFrame :=
  mkDataFrame (columns df) ((λ r : list value, f <$> r) <$> rows df).

(** ** Exceptions and the reporting channel *)

Inductive exn :=
| KeyError (key : string)
| IndexError
| ExpatError (msg : string)
| ParseError (msg : string).

(** [str(e)]; for KeyError the repr of a key without quotes or escapes. *)
Definition exn_str (e : exn) : string :=
  match e with
  | KeyError k => "'" +:+ k +:+ "'"
  | IndexError => "list index out of range"
  | ExpatError m => m
  | ParseError m => m
  end.

(** Calls on streamlit's channel, in the order they are made. *)
Inductive diag :=
| st_error (msg : string)
| st_write (msg : string).

(** A computation that reports and may raise. *)
Definition M (A : Type) : Type := list diag → list diag * (exn + A).

Definition ret {A} (a : A) : M A := λ log, (log, inr a).
Definition raise {A} (e : exn) : M A := λ log, (log, inl e).
Definition report (d : diag) : M unit := λ log, (log ++ [d], inr tt).
Definition bind {A B} (m : M A) (k : A → M B) : M B :=
  λ log, match m log with
         | (log', inl e) => (log', inl e)
         | (log', inr a) => k a log'
         end.

Notation "'let!' x := m 'in' k" := (bind m (λ x, k))
  (at level 10, x name, m at level 200, k at level 200).

Fixpoint mapM {A B} (f : A → M B) (l : list A) : M (list B) :=
  match l with
  | [] => ret []
  | a :: l' => let! b := f a in let! bs := mapM f l' in ret (b :: bs)
  end.

(** ** ElementTree elements and their serialization *)

Set Warnings "-register-all".

Inductive Element := mkElement {
  tag : string;
  text : option string;
  children : list Element;
  tail : option string
}.

(** An element made by [ET.Element] or [ET.SubElement] has neither text nor
    tail nor children; SubElement appends it to its parent. *)

(** An optional text that Python takes for true: not None and not empty. *)
Definition truthy (t : option string) : bool :=
  match t with
  | Some s => negb (Str.is_empty s)
  | None => false
  end.

(** [_escape_cdata] of ElementTree. *)
Definition escape_cdata (s : string) : string :=
  Str.replace ">" "&gt;" (Str.replace "<" "&lt;" (Str.replace "&" "&amp;" s)).

Definition write_cdata (t : option string) : string :=
  match t with
  | Some s => if Str.is_empty s then "" else escape_cdata s
  | None => ""
  end.

(** [_serialize_xml] with short empty elements, for elements without
    attributes and namespaces (all that the program builds). *)
Fixpoint serialize_xml (e : Element) : string :=
  match e with
  | mkElement tg tx ch tl =>
      "<" +:+ tg +:+
      (if truthy tx || negb (bool_decide (ch = []))
       then ">" +:+ write_cdata tx +:+
            (fix go (cs : list Element) : string :=
               match cs with
               | [] => ""
               | c :: cs' => serialize_xml c +:+ go cs'
               end) ch +:+
            "</" +:+ tg +:+ ">"
       else " />") +:+
      write_cdata tl
  end.

(** ** The XML tokenizer under both parsers

    [minidom.parseString] and [ET.parse] feed the same tokenizer (expat).  It
    is modelled on the documents the two serializers write: the declaration
    minidom prints, start, end and empty-element tags without attributes,
    and character data with the five predefined entity references.  Any
    other construct is reported as an error.  Error messages name the kind
    of error without its line and column. *)

Module Xml.

Inductive token :=
| TDecl
| TOpen (name : string)
| TClose (name : string)
| TEmpty (name : string)
| TText (data : string).

Definition is_name (s : string) : bool :=
  match s with
  | EmptyString => false
  | String c s' => Char.is_name_start c && Str.forallb Char.is_name_char s'
  end.

(** The declaration as minidom's [Document.writexml] prints it. *)
Definition decl_body : string :=
  "?xml version=" +:+ String Char.QUOT ("1.0" +:+ String Char.QUOT " ?").

(** The token of a tag, from the text between its angle brackets. *)
Definition classify (body : string) : string + token :=
  match body with
  | EmptyString => inl "not well-formed (invalid token)"
  | String c rest =>
      if Ascii.eqb c "?" then
        if bool_decide (body = decl_body) then inr TDecl
        else inl "processing instruction"
      else if Ascii.eqb c "/" then
        let n := Str.rstrip rest in
        if is_name n then inr (TClose n)
        else inl "not well-formed (invalid token)"
      else
        match Str.unsnoc body with
        | Some (init, l) =>
            if Ascii.eqb l "/" then
              let n := Str.rstrip init in
              if is_name n then inr (TEmpty n)
              else inl "not well-formed (invalid token)"
            else
              let n := Str.rstrip body in
              if is_name n then inr (TOpen n)
              else inl "not well-formed (invalid token)"
        | None => inl "not well-formed (invalid token)"
        end
  end.

(** End-of-line handling: a carriage return, with the line feed that may
    follow it, is read as one line feed.  [after_cr] records that the
    previous character was a carriage return. *)
Fixpoint normalize_newlines (after_cr : bool) (s : string) : string :=
  match s with
  | EmptyString => EmptyString
  | String c s' =>
      if Ascii.eqb c Char.CR then String Char.LF (normalize_newlines true s')
      else if Ascii.eqb c Char.LF then
        if after_cr then normalize_newlines false s'
        else String Char.LF (normalize_newlines false s')
      else String c (normalize_newlines false s')
  end.

(** The sequence that may not occur in character data: two closing square
    brackets and a greater-than sign. *)
Definition starts_cdata_end (s : string) : bool :=
  match s with
  | String a (String b (String c _)) =>
      Ascii.eqb a "]" && Ascii.eqb b "]" && Ascii.eqb c ">"
  | _ => false
  end.

Fixpoint has_cdata_end (s : string) : bool :=
  match s with
  | EmptyString => false
  | String _ s' => starts_cdata_end s || has_cdata_end s'
  end.

Definition entity (name : string) : option ascii :=
  if bool_decide (name = "amp") then Some "&"%char
  else if bool_decide (name = "lt") then Some "<"%char
  else if bool_decide (name = "gt") then Some ">"%char
  else if bool_decide (name = "quot") then Some Char.QUOT
  else if bool_decide (name = "apos") then Some Char.APOS
  else None.

(** Replaces each entity reference by its character, once: the characters
    a reference yields are not read again.  [ref] is the name read so far
    of the reference the scan is inside of. *)
Fixpoint decode_refs (ref : option string) (s : string) : option string :=
  match s with
  | EmptyString =>
      match ref with
      | None => Some EmptyString
      | Some _ => None
      end
  | String c s' =>
      match ref with
      | None =>
          if Ascii.eqb c "&" then decode_refs (Some EmptyString) s'
          else String c <$> decode_refs None s'
      | Some name =>
          if Ascii.eqb c ";" then
            match entity name with
            | Some d => String d <$> decode_refs None s'
            | None => None
            end
          else decode_refs (Some (name +:+ String c EmptyString)) s'
      end
  end.

(** The character data of a text run, as the parser hands it on. *)
Definition decode_text (raw : string) : string + string :=
  if negb (Str.forallb Char.is_xml_char raw) || has_cdata_end raw
  then inl "not well-formed (invalid token)"
  else match decode_refs None (normalize_newlines false raw) with
       | Some d => inr d
       | None => inl "undefined entity"
       end.

(** The pieces of a text: the tags, by the text between their angle
    brackets, and the text runs between them. *)
Inductive seg :=
| STag (body : string)
| SText (raw : string).

Inductive lstate :=
| InText (raw : string)
| InTag (body : string).

Definition text_seg (raw : string) : list seg :=
  if Str.is_empty raw then [] else [SText raw].

(** One pass over the text: a text run ends at the next [<], a tag at the
    next [>].  [None] when the text ends inside a tag. *)
Fixpoint split (st : lstate) (s : string) : option (list seg) :=
  match s with
  | EmptyString =>
      match st with
      | InText raw => Some (text_seg raw)
      | InTag _ => None
      end
  | String c s' =>
      match st with
      | InText raw =>
          if Ascii.eqb c "<"
          then (λ r, text_seg raw ++ r) <$> split (InTag EmptyString) s'
          else split (InText (raw +:+ String c EmptyString)) s'
      | InTag body =>
          if Ascii.eqb c ">"
          then (λ r, STag body :: r) <$> split (InText EmptyString) s'
          else split (InTag (body +:+ String c EmptyString)) s'
      end
  end.

Definition token_of (sg : seg) : string + token :=
  match sg with
  | STag body => classify body
  | SText raw =>
      match decode_text raw with
      | inl e => inl e
      | inr d => inr (TText d)
      end
  end.

Fixpoint tokens_of (sgs : list seg) : string + list token :=
  match sgs with
  | [] => inr []
  | sg :: sgs' =>
      match token_of sg with
      | inl e => inl e
      | inr t =>
          match tokens_of sgs' with
          | inl e => inl e
          | inr ts => inr (t :: ts)
          end
      end
  end.

Definition lex (s : string) : string + list token :=
  match split (InText EmptyString) s with
  | None => inl "unclosed token"
  | Some sgs => tokens_of sgs
  end.

(** *** Documents *)

Inductive node :=
| NElem (name : string) (kids : list node)
| NText (data : string).

(** An element that is still open: its name and the children read so far. *)
Definition frame : Type := string * list node.

Definition is_blank (s : string) : bool := Str.forallb Char.is_space s.

(** Adds a finished node to the innermost open element, or makes it the
    document element. *)
Definition attach (n : node) (open : list frame) (root : option node)
  : string + (list frame * option node) :=
  match open with
  | (tg, kids) :: open' => inr ((tg, kids ++ [n]) :: open', root)
  | [] =>
      match root with
      | None => inr ([], Some n)
      | Some _ => inl "junk after document element"
      end
  end.

Fixpoint build (open : list frame) (root : option node) (ts : list token)
  : string + node :=
  match ts with
  | [] =>
      match open, root with
      | [], Some r => inr r
      | _, _ => inl "no element found"
      end
  | t :: ts' =>
      match t with
      | TDecl => inl "XML or text declaration not at start of entity"
      | TText d =>
          match open with
          | (tg, kids) :: open' => build ((tg, kids ++ [NText d]) :: open') root ts'
          | [] =>
              if is_blank d then build [] root ts'
              else match root with
                   | None => inl "syntax error"
                   | Some _ => inl "junk after document element"
                   end
          end
      | TOpen n =>
          match open, root with
          | [], Some _ => inl "junk after document element"
          | _, _ => build ((n, []) :: open) root ts'
          end
      | TEmpty n =>
          match attach (NElem n []) open root with
          | inl e => inl e
          | inr (open', root') => build open' root' ts'
          end
      | TClose n =>
          match open with
          | [] => inl "not well-formed (invalid token)"
          | (tg, kids) :: open' =>
              if bool_decide (n = tg) then
                match attach (NElem tg kids) open' root with
                | inl e => inl e
                | inr (open'', root') => build open'' root' ts'
                end
              else inl "mismatched tag"
          end
      end
  end.

(** The document element of a text. *)
Definition parse (s : string) : string + node :=
  match lex s with
  | inl e => inl e
  | inr (TDecl :: ts) => build [] None ts
  | inr ts => build [] None ts
  end.

End Xml.

(** ** minidom *)

Module minidom.

(** [parseString]: the document element, or ExpatError. *)
Definition parseString (s : string) : exn + Xml.node :=
  match Xml.parse s with
  | inl m => inl (ExpatError m)
  | inr d => inr d
  end.

(** [_write_data] *)
Definition write_data (data : string) : string :=
  Str.replace ">" "&gt;"
    (Str.replace Char.QUOT "&quot;"
      (Str.replace "<" "&lt;"
        (Str.replace "&" "&amp;" data))).

Definition newl : string := String Char.LF EmptyString.

(** [Node.writexml(writer, indent, addindent, newl)] for elements without
    attributes and for text nodes. *)
Fixpoint writexml (indent addindent : string) (n : Xml.node) : string :=
  match n with
  | Xml.NText d => write_data (indent +:+ d +:+ newl)
  | Xml.NElem tg kids =>
      indent +:+ "<" +:+ tg +:+
      match kids with
      | [] => "/>" +:+ newl
      | [Xml.NText d] => ">" +:+ write_data d +:+ "</" +:+ tg +:+ ">" +:+ newl
      | _ =>
          ">" +:+ newl +:+
          (fix go (ks : list Xml.node) : string :=
             match ks with
             | [] => ""
             | k :: ks' => writexml (indent +:+ addindent) addindent k +:+ go ks'
             end) kids +:+
          indent +:+ "</" +:+ tg +:+ ">" +:+ newl
      end
  end.

(** [Document.toprettyxml(indent)]: the declaration, then the document
    element. *)
Definition toprettyxml (indent : string) (d : Xml.node) : string :=
  "<" +:+ Xml.decl_body +:+ ">" +:+ newl +:+ writexml "" indent d.

End minidom.

(** ** ElementTree's parser *)

Module ET.

Definition leading_text (ks : list Xml.node) : option string :=
  match ks with
  | Xml.NText d :: _ => Some d
  | _ => None
  end.

(** The tree builder: character data before the first child is the
    element's text, character data after an element's end tag is that
    element's tail. *)
Fixpoint of_node (n : Xml.node) (tl : option string) : Element :=
  match n with
  | Xml.NText d => mkElement "" (Some d) [] tl
  | Xml.NElem tg kids =>
      mkElement tg (leading_text kids)
        ((fix go (ks : list Xml.node) : list Element :=
            match ks with
            | [] => []
            | Xml.NText _ :: ks' => go ks'
            | (Xml.NElem _ _ as e) :: ks' => of_node e (leading_text ks') :: go ks'
            end) kids)
        tl
  end.

(** [ET.parse(file).getroot()]: the root element, or ParseError. *)
Definition parse (s : string) : exn + Element :=
  match Xml.parse s with
  | inl m => inl (ParseError m)
  | inr d => inr (of_node d None)
  end.

(** [ET.tostring(root, encoding="utf-8", method="xml")]: no declaration is
    written for this encoding. *)
Definition tostring (root : Element) : string := serialize_xml root.

(** [root.findall("Item")]: the children with that tag, in document order. *)
Definition findall (tg : string) (e : Element) : list Element :=
  filter (λ c, tag c = tg) (children e).

End ET.

(** ** Byte buffers *)

(** [io.BytesIO]: the bytes written and the position of the next read. *)
Record BytesIO := mkBytesIO {
  getvalue : string;
  position : nat
}.

Module Buf.
Definition empty : BytesIO := mkBytesIO "" 0.
(** [write] at the end of a fresh buffer *)
Definition write (b : BytesIO) (s : string) : BytesIO :=
  mkBytesIO (getvalue b +:+ s) (String.length (getvalue b +:+ s)).
Definition seek (b : BytesIO) (n : nat) : BytesIO := mkBytesIO (getvalue b) n.
(** What a reader gets: everything from the position on. *)
Definition read (b : BytesIO) : string := Str.drop (position b) (getvalue b).
End Buf.

(** ** [convert_df_to_pretty_xml] *)

(** Lines 43 to 49: one leaf for the column [col_name] of the row [i].  The
    text form of every modelled value exists, so the only failure inside the
    [try] is a label that the row lacks; the handler reports it and then
    formats [row[col_name]] again, which raises once more, outside the [try]. *)
Definition build_leaf (i : nat) (row : Series) (col_name : string) : M Element :=
  match Series_getitem row col_name with
  | Some v => ret (mkElement col_name (Some (html_escape (py_str v))) [] None)
  | None =>
      let! _ := report (st_error ("Error converting column '" +:+ col_name +:+
                                  "' in row " +:+ Str.of_nat i +:+ ": " +:+
                                  exn_str (KeyError col_name))) in
      raise (KeyError col_name)
  end.

(** Lines 39 to 49: the element of one row. *)
Definition build_item (df : DataFrame) (i : nat) (row : Series) : M Element :=
  let! leaves := mapM (build_leaf i row) (columns df) in
  ret (mkElement "Item" None leaves None).

(** Lines 34 to 49: the tree of the table. *)
Definition build_root (df : DataFrame) : M Element :=
  let! items := mapM (λ ir, build_item df ir.1 ir.2) (iterrows df) in
  ret (mkElement "Root" None items None).

(** The conversion.  The first component of the result is the caller's
    table after the call: line 28 assigns to [df.columns] of the object that
    was passed in, line 31 rebinds the local name to a new table. *)
Definition convert_df_to_pretty_xml (df : DataFrame)
  : DataFrame * M BytesIO :=
  let caller_df := mkDataFrame (clean_column_name <$> columns df) (rows df) in
  let df := applymap clean_data caller_df in
  (caller_df,
   let! root := build_root df in
   let xml_string := ET.tostring root in
   match minidom.parseString xml_string with
   | inl e =>
       let! _ := report (st_error ("Error formatting XML: " +:+ exn_str e)) in
       let! _ := report (st_write "Problem detected with the following raw XML snippet:") in
       let! _ := report (st_write (Str.take 500 xml_string)) in
       raise e
   | inr dom =>
       let xml_pretty := minidom.toprettyxml "  " dom in
       let xml_io := Buf.write Buf.empty xml_pretty in
       let xml_io := Buf.seek xml_io 0 in
       ret xml_io
   end).

(** ** [test_conversion_accuracy] *)

(** [xml_row.get(key)]: the stored text, which may itself be None. *)
Definition dict_get (xml_row : gmap string (option string)) (key : string)
  : option string :=
  match xml_row !! key with
  | Some t => t
  | None => None
  end.

(** Lines 83 to 85 *)
Definition xml_row_of (item : Element) : gmap string (option string) :=
  foldl (λ xml_row child, <[tag child := text child]> xml_row) ∅ (children item).

(** The text placed in the message for a recovered value. *)
Definition show_recovered (t : option string) : string :=
  match t with
  | Some s => s
  | None => "None"
  end.

Definition mismatch_message (record : nat) (key original : string)
    (recovered : option string) : string :=
  "Mismatch found in record " +:+ Str.of_nat record +:+
  " for column '" +:+ key +:+ "': '" +:+ original +:+
  "' != '" +:+ show_recovered recovered +:+ "'".

(** Lines 90 to 95 for one row: [None] when the inner loop finds no
    difference and control passes to the next row. *)
Fixpoint compare_columns (xml_data : list (gmap string (option string)))
    (i : nat) (row : Series) (keys : list string)
  : exn + option (bool * string) :=
  match keys with
  | [] => inr None
  | key :: keys' =>
      match Series_getitem row key with
      | None => inl (KeyError key)
      | Some v =>
          match xml_data !! i with
          | None => inl IndexError
          | Some xml_row =>
              if bool_decide (Some (py_str v) ≠ dict_get xml_row key)
              then inr (Some (false,
                     mismatch_message (i + 1) key (py_str v) (dict_get xml_row key)))
              else compare_columns xml_data i row keys'
          end
      end
  end.

(** Lines 89 to 97 *)
Fixpoint compare_rows (df : DataFrame)
    (xml_data : list (gmap string (option string)))
    (its : list (nat * Series)) : exn + (bool * string) :=
  match its with
  | [] => inr (true, "All data has been accurately converted!")
  | (i, row) :: its' =>
      match compare_columns xml_data i row (columns df) with
      | inl e => inl e
      | inr (Some r) => inr r
      | inr None => compare_rows df xml_data its'
      end
  end.

(** Lines 78 to 97, from the parsed root on. *)
Definition compare_with_root (df : DataFrame) (root : Element)
  : exn + (bool * string) :=
  let xml_data := xml_row_of <$> ET.findall "Item" root in
  compare_rows df xml_data (iterrows df).

Definition test_conversion_accuracy (df : DataFrame) (xml_file : BytesIO)
  : exn + (bool * string) :=
  let xml_file := Buf.seek xml_file 0 in
  match ET.parse (Buf.read xml_file) with
  | inl e => inl e
  | inr root => compare_with_root df root
  end.

(** ** The cycle of [main]: convert, then verify (lines 141 and 152) *)

(** The verifier receives the table the converter was given, with the
    column labels the converter left on it. *)
Definition convert_then_test (df : DataFrame)
  : list diag * (exn + (bool * string)) :=
  let '(df', conv) := convert_df_to_pretty_xml df in
  match conv [] with
  | (log, inl e) => (log, inl e)
  | (log, inr xml_file) => (log, test_conversion_accuracy df' xml_file)
  end.

(** ** [main]: what is done with an uploaded file (lines 126 to 159)

    The messages of [main] begin with a pictograph, which lies outside the
    code points an [ascii] stands for; it is written as the bytes of its
    UTF-8 form, and no statement looks inside it. *)







(** * Vocabulary of the statements *)

(** ** Column names *)

(** The sanitized name as the specification words it: runs of characters
    that are not alphanumeric, the underscore among them, become one
    underscore. *)
Fixpoint replace_nonalnum_runs (in_run : bool) (s : string) : string :=
  match s with
  | EmptyString => EmptyString
  | String c s' =>
      if Char.isalnum c then String c (replace_nonalnum_runs false s')
      else if in_run then replace_nonalnum_runs true s'
      else String "_" (replace_nonalnum_runs true s')
  end.

(** No word character follows the run: the text after it is empty or
    begins with a word character. *)
Definition starts_with_word (s : string) : Prop :=
  match s with
  | EmptyString => True
  | String c _ => Char.is_word c = true
  end.

(** No word character precedes the run. *)
Definition ends_with_word (s : string) : Prop :=
  match Str.unsnoc s with
  | None => True
  | Some (_, c) => Char.is_word c = true
  end.

Definition nonword (s : string) : bool :=
  Str.forallb (λ c, negb (Char.is_word c)) s.

(** ** Documents as pieces, tokens and nodes *)

(** The text that a list of pieces stands for. *)
Fixpoint render (sgs : list Xml.seg) : string :=
  match sgs with
  | [] => ""
  | Xml.STag body :: sgs' => "<" +:+ body +:+ ">" +:+ render sgs'
  | Xml.SText raw :: sgs' => raw +:+ render sgs'
  end.

(** The tokens of a node: an element without children is one empty-element
    tag, as both serializers write it. *)
Fixpoint tokens (n : Xml.node) : list Xml.token :=
  match n with
  | Xml.NText d => [Xml.TText d]
  | Xml.NElem tg kids =>
      match kids with
      | [] => [Xml.TEmpty tg]
      | _ =>
          Xml.TOpen tg ::
          (fix go (ks : list Xml.node) : list Xml.token :=
             match ks with
             | [] => []
             | k :: ks' => tokens k ++ go ks'
             end) kids ++ [Xml.TClose tg]
      end
  end.

Definition tokens_list (ks : list Xml.node) : list Xml.token :=
  flat_map tokens ks.

(** ** The document of a table *)

(** The table the converter works on after lines 28 and 31. *)
Definition cleaned (df : DataFrame) : DataFrame :=
  applymap clean_data (mkDataFrame (clean_column_name <$> columns df) (rows df)).

(** The text placed in the leaf of a cell (lines 31 and 46). *)
Definition leaf_text (v : value) : string :=
  html_escape (py_str (clean_data v)).

(** The leaves of a table, row by row: tag and text. *)
Definition table_leaves (df : DataFrame) : list (list (string * string)) :=
  (λ r, zip (clean_column_name <$> columns df) (leaf_text <$> r)) <$> rows df.

Definition leaf_element (l : string * string) : Element :=
  mkElement l.1 (Some l.2) [] None.

Definition item_element (ls : list (string * string)) : Element :=
  mkElement "Item" None (leaf_element <$> ls) None.

Definition root_element (d : list (list (string * string))) : Element :=
  mkElement "Root" None (item_element <$> d) None.

(** The pieces of [ET.tostring] on such a tree. *)
Definition leaf_csegs (l : string * string) : list Xml.seg :=
  if Str.is_empty l.2 then [Xml.STag (l.1 +:+ " /")]
  else [Xml.STag l.1; Xml.SText (escape_cdata l.2); Xml.STag ("/" +:+ l.1)].

Definition item_csegs (ls : list (string * string)) : list Xml.seg :=
  match ls with
  | [] => [Xml.STag "Item /"]
  | _ => Xml.STag "Item" :: flat_map leaf_csegs ls ++ [Xml.STag "/Item"]
  end.

Definition root_csegs (d : list (list (string * string))) : list Xml.seg :=
  match d with
  | [] => [Xml.STag "Root /"]
  | _ => Xml.STag "Root" :: flat_map item_csegs d ++ [Xml.STag "/Root"]
  end.

(** The nodes of a document with the given leaves. *)
Definition leaf_node (l : string * string) : Xml.node :=
  Xml.NElem l.1 (if Str.is_empty l.2 then [] else [Xml.NText l.2]).

Definition item_node (ls : list (string * string)) : Xml.node :=
  Xml.NElem "Item" (leaf_node <$> ls).

Definition root_node (d : list (list (string * string))) : Xml.node :=
  Xml.NElem "Root" (item_node <$> d).

(** The leaves as the first parse hands them on: line ends normalized. *)
Definition parsed_leaf (l : string * string) : string * string :=
  (l.1, Xml.normalize_newlines false l.2).

Definition parsed_leaves (d : list (list (string * string)))
  : list (list (string * string)) :=
  (λ ls : list (string * string), parsed_leaf <$> ls) <$> d.

(** A table that the pretty-printing step accepts: if there is a row, every
    sanitized label is an XML name, and every leaf text consists of
    characters XML allows. *)
Definition valid_leaf (l : string * string) : bool :=
  Xml.is_name l.1 && Str.forallb Char.is_xml_char l.2.

Definition valid_leaves (d : list (list (string * string))) : bool :=
  forallb (forallb valid_leaf) d.

Definition serializable (df : DataFrame) : bool :=
  valid_leaves (table_leaves df).

(** ** The pretty-printed document *)

Definition indent1 : string := minidom.newl +:+ "  ".
Definition indent2 : string := minidom.newl +:+ "    ".

(** The pieces of [toprettyxml] on the nodes of a table, without the line
    end that closes the text. *)
Definition leaf_psegs (l : string * string) : list Xml.seg :=
  if Str.is_empty l.2 then [Xml.STag (l.1 +:+ "/")]
  else [Xml.STag l.1; Xml.SText (minidom.write_data l.2); Xml.STag ("/" +:+ l.1)].

Definition item_psegs (ls : list (string * string)) : list Xml.seg :=
  match ls with
  | [] => [Xml.STag "Item/"]
  | _ =>
      Xml.STag "Item" ::
      flat_map (λ l, Xml.SText indent2 :: leaf_psegs l) ls ++
      [Xml.SText indent1; Xml.STag "/Item"]
  end.

Definition root_psegs (d : list (list (string * string))) : list Xml.seg :=
  match d with
  | [] => [Xml.STag "Root/"]
  | _ =>
      Xml.STag "Root" ::
      flat_map (λ ls, Xml.SText indent1 :: item_psegs ls) d ++
      [Xml.SText minidom.newl; Xml.STag "/Root"]
  end.

Definition document_psegs (d : list (list (string * string))) : list Xml.seg :=
  Xml.STag Xml.decl_body :: Xml.SText minidom.newl :: root_psegs d.

(** The nodes that the second parse builds: the indentation is character
    data between the elements. *)
Definition pretty_item (ls : list (string * string)) : Xml.node :=
  Xml.NElem "Item"
    match ls with
    | [] => []
    | _ => flat_map (λ l, [Xml.NText indent2; leaf_node l]) ls ++ [Xml.NText indent1]
    end.

Definition pretty_root (d : list (list (string * string))) : Xml.node :=
  Xml.NElem "Root"
    match d with
    | [] => []
    | _ => flat_map (λ ls, [Xml.NText indent1; pretty_item ls]) d ++ [Xml.NText minidom.newl]
    end.

(** The child elements that the tree builder makes of a list of nodes. *)
Fixpoint element_children (ks : list Xml.node) : list Element :=
  match ks with
  | [] => []
  | Xml.NText _ :: ks' => element_children ks'
  | (Xml.NElem _ _ as e) :: ks' =>
      ET.of_node e (ET.leading_text ks') :: element_children ks'
  end.

(** What the verifier reads of a row element: tag and text of each child. *)
Definition leaves_of (item : Element) : list (string * option string) :=
  (λ c, (tag c, text c)) <$> children item.

(** The text of a leaf as the verifier recovers it. *)
Definition recovered_text (t : string) : option string :=
  if Str.is_empty t then None else Some t.

(** Leaves whose tag consists of word characters, as every sanitized label
    does, and leaves whose tag has no greater-than sign. *)
Definition word_leaf (l : string * string) : bool :=
  Str.forallb Char.is_word l.1.

Definition word_leaves (d : list (list (string * string))) : bool :=
  forallb (forallb word_leaf) d.

Definition gt_free_leaf (l : string * string) : bool :=
  Str.lacks ">" l.1.

(** Leaves as the first parse leaves them: valid, and without carriage
    returns. *)
Definition settled_leaf (l : string * string) : bool :=
  valid_leaf l && Str.lacks Char.CR l.2.

Definition settled_leaves (d : list (list (string * string))) : bool :=
  forallb (forallb settled_leaf) d.

(** ** The comparison as one scan *)

(** A cell with its place: row index, column label, value. *)
Definition cell : Type := nat * string * value.

(** The cells of a table in row-major order: the rows in order, and within
    a row the columns in order. *)
Definition cells (df : DataFrame) : list cell :=
  flat_map (λ ir : nat * Series, (λ kv, (ir.1, kv.1, kv.2)) <$> ir.2) (iterrows df).

(** The text recovered for a cell, when the parsed document has its row. *)
Definition recovered (xml_data : list (gmap string (option string))) (c : cell)
  : option (option string) :=
  (λ xml_row, dict_get xml_row c.1.2) <$> xml_data !! c.1.1.

Definition agrees (xml_data : list (gmap string (option string))) (c : cell) : Prop :=
  recovered xml_data c = Some (Some (py_str c.2)).

Definition differs (xml_data : list (gmap string (option string))) (c : cell) : Prop :=
  ∃ got, recovered xml_data c = Some got ∧ got ≠ Some (py_str c.2).

(** The report on a cell that differs. *)
Definition report_of (c : cell) (got : option string) : bool * string :=
  (false, mismatch_message (c.1.1 + 1) c.1.2 (py_str c.2) got).

Definition success : bool * string :=
  (true, "All data has been accurately converted!").

(** A scan of cells that stops at the first one whose recovered text
    differs, and ends in [k] when there is none. *)
Fixpoint scan_cells (xml_data : list (gmap string (option string)))
    (cs : list cell) (k : exn + (bool * string)) : exn + (bool * string) :=
  match cs with
  | [] => k
  | c :: cs' =>
      match recovered xml_data c with
      | None => inl IndexError
      | Some got =>
          if bool_decide (Some (py_str c.2) ≠ got) then inr (report_of c got)
          else scan_cells xml_data cs' k
      end
  end.

(** The rows the verifier builds from a document with the given leaves. *)
Definition recovered_row (ls : list (string * string)) : gmap string (option string) :=
  foldl (λ xml_row (p : string * option string), <[p.1 := p.2]> xml_row) ∅
    ((λ l : string * string, (l.1, recovered_text l.2)) <$> ls).

(** What the verifier gets back for the cell that held [v]. *)
Definition roundtrip (v : value) : option string :=
  recovered_text (Xml.normalize_newlines false (leaf_text v)).

(** The table the caller holds after the conversion. *)
Definition relabelled (df : DataFrame) : DataFrame :=
  mkDataFrame (clean_column_name <$> columns df) (rows df).

(** The buffer the conversion returns for a table it accepts. *)
Definition pretty_buffer (df : DataFrame) : BytesIO :=
  mkBytesIO
    (minidom.toprettyxml "  " (root_node (parsed_leaves (table_leaves df)))) 0.

(** ** Cells *)

(** The table has a cell that holds [v]. *)
Definition holds (df : DataFrame) (v : value) : Prop :=
  ∃ r, r ∈ rows df ∧ v ∈ r.

(** None of the characters that [html.escape] replaces occurs in [s]. *)
Definition plain (s : string) : bool :=
  Str.lacks "&" s && Str.lacks "<" s && Str.lacks ">" s
  && Str.lacks Char.QUOT s && Str.lacks Char.APOS s.

(** A block of pieces that the scan gives back, whatever text follows. *)
Definition Splits (sgs : list Xml.seg) : Prop :=
  ∀ rest rsgs,
    Xml.split (Xml.InText "") rest = Some rsgs →
    Xml.split (Xml.InText "") (render sgs +:+ rest) = Some (sgs ++ rsgs).

(** ** The text of the file, line by line *)







(** ** Tables of strings *)

(** [isinstance(value, str)] *)
Definition isinstance_str (v : value) : bool :=
  match v with
  | VStr _ => true
  | _ => false
  end.

(** Every cell of the table holds a string: the tables for which
    [applymap] hands the cells on as they are, so that the converter writes
    the text of the very cells that the verifier compares. *)
Definition string_cells (df : DataFrame) : bool :=
  forallb (forallb isinstance_str) (rows df).

(** The cell comes back from the document as it was. *)
Definition comes_back (c : cell) : Prop :=
  roundtrip c.2 = Some (py_str c.2).

Global Instance comes_back_dec (c : cell) : Decision (comes_back c).
Proof. unfold comes_back. apply _. Defined.

(** ** Tactics *)

(** Case analysis on a character against the ones the routines treat
    specially; in the last case every test on the character is false. *)
Ltac split_char c :=
  let rec go l :=
    lazymatch l with
    | nil => idtac
    | cons ?x ?l' =>
        let H := fresh "Hc" in
        destruct (Ascii.eqb_spec c x) as [->|H];
        [| apply Ascii.eqb_neq in H; go l']
    end in
  go ["&"; "<"; ">"; Char.QUOT; Char.APOS; Char.CR; Char.LF]%char.

Ltac plain_char :=
  repeat (cbn; unfold Char.QUOT, Char.APOS, Char.CR, Char.LF in *;
          match goal with
          | H : Ascii.eqb ?c ?x = false |- context [Ascii.eqb ?c ?x] =>
              rewrite !H
          end);
  cbn.

(** The labels of a concrete table are distinct. *)
Ltac distinct_labels :=
  repeat (apply NoDup_cons; split;
          [let H := fresh in
           intros H;
           repeat (apply elem_of_cons in H as [H|H]; [discriminate H|]);
           by apply elem_of_nil in H|]);
  apply NoDup_nil_2.

(** * Properties *)

#[local] Arguments String.append !s1 s2 : simpl nomatch.

(** ** Strings *)

Section StrFacts.

Lemma sapp_nil_r (s : string) : s +:+ "" = s.
Proof. induction s as [|c s IH]; [done|]. cbn. by rewrite IH. Qed.

Lemma sapp_assoc (a b c : string) : (a +:+ b) +:+ c = a +:+ (b +:+ c).
Proof. induction a as [|x a IH]; [done|]. cbn. by rewrite IH. Qed.

Lemma sapp_cons (c : ascii) (a b : string) : String c a +:+ b = String c (a +:+ b).
Proof. done. Qed.

Lemma sapp_snoc (a : string) (c : ascii) (b : string) :
  (a +:+ String c "") +:+ b = a +:+ String c b.
Proof. by rewrite sapp_assoc. Qed.

Lemma sforallb_app (p : ascii → bool) (a b : string) :
  Str.forallb p (a +:+ b) = Str.forallb p a && Str.forallb p b.
Proof.
  induction a as [|x a IH]; [done|]. cbn. rewrite IH. by destruct (p x).
Qed.

Lemma sforallb_impl (p q : ascii → bool) (s : string) :
  (∀ c, p c = true → q c = true) →
  Str.forallb p s = true → Str.forallb q s = true.
Proof.
  intros Hpq. induction s as [|c s IH]; [done|]. cbn.
  intros [Hc Hs]%andb_true_iff. rewrite (Hpq _ Hc). cbn. auto.
Qed.

Lemma replace_app (old : ascii) (new a b : string) :
  Str.replace old new (a +:+ b) = Str.replace old new a +:+ Str.replace old new b.
Proof.
  induction a as [|x a IH]; [done|]. cbn.
  destruct (Ascii.eqb x old); rewrite IH; [by rewrite sapp_assoc | done].
Qed.

Lemma replace_absent (old : ascii) (new s : string) :
  Str.forallb (λ c, negb (Ascii.eqb c old)) s = true →
  Str.replace old new s = s.
Proof.
  induction s as [|x s IH]; [done|]. cbn.
  intros [Hx Hs]%andb_true_iff. apply negb_true_iff in Hx. rewrite Hx.
  by rewrite IH.
Qed.

Lemma slength_app (a b : string) :
  String.length (a +:+ b) = String.length a + String.length b.
Proof. induction a as [|x a IH]; [done|]. cbn. by rewrite IH. Qed.

End StrFacts.

(** ** Column names *)

Section ColumnNames.

Lemma re_sub_nonword_word (b : bool) (s : string) :
  Str.forallb Char.is_word (re_sub_nonword b s) = true.
Proof.
  revert b. induction s as [|c s IH]; intros b; [done|]. cbn.
  destruct (Char.is_word c) eqn:Hc; cbn; [by rewrite Hc, IH|].
  destruct b; [apply IH|]. cbn. apply IH.
Qed.

Lemma re_sub_nonword_id (b : bool) (s : string) :
  Str.forallb Char.is_word s = true → re_sub_nonword b s = s.
Proof.
  revert b. induction s as [|c s IH]; intros b; [done|]. cbn.
  intros [Hc Hs]%andb_true_iff. rewrite Hc. by rewrite IH.
Qed.

Lemma re_sub_nonword_after_word (b : bool) (pre rest : string) :
  pre ≠ "" → ends_with_word pre →
  re_sub_nonword b (pre +:+ rest)
  = re_sub_nonword b pre +:+ re_sub_nonword false rest.
Proof.
  revert b. induction pre as [|c pre IH]; intros b Hne Hend; [done|].
  unfold ends_with_word in *. cbn in Hend |- *.
  destruct pre as [|c' pre'].
  - cbn in Hend |- *. by rewrite Hend.
  - assert (Hend' : match Str.unsnoc (String c' pre') with
                    | Some (_, x) => Char.is_word x = true
                    | None => True
                    end).
    { destruct (Str.unsnoc (String c' pre')) as [[i l]|]; [exact Hend|done]. }
    destruct (Char.is_word c); [|destruct b]; rewrite IH by done; done.
Qed.

Lemma re_sub_nonword_in_run (run rest : string) :
  nonword run = true →
  re_sub_nonword true (run +:+ rest) = re_sub_nonword true rest.
Proof.
  induction run as [|c run IH]; [done|]. cbn.
  intros [Hc Hs]%andb_true_iff. apply negb_true_iff in Hc. rewrite Hc. auto.
Qed.

Lemma re_sub_nonword_resume (post : string) :
  starts_with_word post →
  re_sub_nonword true post = re_sub_nonword false post.
Proof. destruct post as [|c post]; [done|]. cbn. by intros ->. Qed.

Lemma re_sub_nonword_run (run post : string) :
  run ≠ "" → nonword run = true → starts_with_word post →
  re_sub_nonword false (run +:+ post) = "_" +:+ re_sub_nonword false post.
Proof.
  destruct run as [|c run]; [done|]. intros _ Hrun Hpost.
  cbn in Hrun |- *. apply andb_true_iff in Hrun as [Hc Hrun].
  apply negb_true_iff in Hc. rewrite Hc.
  by rewrite re_sub_nonword_in_run, re_sub_nonword_resume.
Qed.

End ColumnNames.

(** ** Character data: escaping, and decoding once *)

Section CharacterData.

Import Xml.

Lemma escape_cdata_cons (c : ascii) (s : string) :
  escape_cdata (String c s) = escape_cdata (String c "") +:+ escape_cdata s.
Proof.
  unfold escape_cdata. change (String c s) with (String c "" +:+ s).
  by rewrite !replace_app.
Qed.

Lemma write_data_cons (c : ascii) (s : string) :
  minidom.write_data (String c s)
  = minidom.write_data (String c "") +:+ minidom.write_data s.
Proof.
  unfold minidom.write_data. change (String c s) with (String c "" +:+ s).
  by rewrite !replace_app.
Qed.

Lemma html_escape_cons (c : ascii) (s : string) :
  html_escape (String c s) = html_escape (String c "") +:+ html_escape s.
Proof.
  unfold html_escape. change (String c s) with (String c "" +:+ s).
  by rewrite !replace_app.
Qed.

Lemma decode_escape_cdata (b : bool) (s : string) :
  decode_refs None (normalize_newlines b (escape_cdata s))
  = Some (normalize_newlines b s).
Proof.
  revert b. induction s as [|c s IH]; intros b; [done|].
  rewrite escape_cdata_cons.
  set (e := escape_cdata s) in *. clearbody e.
  split_char c; try (by destruct b; cbn; rewrite ?IH).
  plain_char. by rewrite IH.
Qed.

Lemma decode_write_data (b : bool) (s : string) :
  decode_refs None (normalize_newlines b (minidom.write_data s))
  = Some (normalize_newlines b s).
Proof.
  revert b. induction s as [|c s IH]; intros b; [done|].
  rewrite write_data_cons.
  set (e := minidom.write_data s) in *. clearbody e.
  split_char c; try (by destruct b; cbn; rewrite ?IH).
  plain_char. by rewrite IH.
Qed.

(** Facts on one character carry over to the whole string. *)
Lemma forallb_pieces (p : ascii → bool) (esc : string → string) :
  esc "" = "" →
  (∀ c s, esc (String c s) = esc (String c "") +:+ esc s) →
  ∀ q : ascii → bool,
    (∀ c, Str.forallb p (esc (String c "")) = q c) →
    ∀ s, Str.forallb p (esc s) = Str.forallb q s.
Proof.
  intros Hnil Hcons q Hone s. induction s as [|c s IH].
  - by rewrite Hnil.
  - rewrite Hcons, sforallb_app, Hone, IH. done.
Qed.

Lemma xml_char_escape_cdata (s : string) :
  Str.forallb Char.is_xml_char (escape_cdata s) = Str.forallb Char.is_xml_char s.
Proof.
  apply (forallb_pieces _ escape_cdata eq_refl escape_cdata_cons).
  intros c. split_char c; try done. plain_char. apply andb_true_r.
Qed.

Lemma xml_char_write_data (s : string) :
  Str.forallb Char.is_xml_char (minidom.write_data s)
  = Str.forallb Char.is_xml_char s.
Proof.
  apply (forallb_pieces _ minidom.write_data eq_refl write_data_cons).
  intros c. split_char c; try done. plain_char. apply andb_true_r.
Qed.

Lemma no_lt_escape_cdata (s : string) : Str.lacks "<" (escape_cdata s) = true.
Proof.
  unfold Str.lacks.
  rewrite (forallb_pieces _ escape_cdata eq_refl escape_cdata_cons (λ _, true)).
  - by induction s.
  - intros c. split_char c; try done. by plain_char.
Qed.

Lemma no_gt_escape_cdata (s : string) : Str.lacks ">" (escape_cdata s) = true.
Proof.
  unfold Str.lacks.
  rewrite (forallb_pieces _ escape_cdata eq_refl escape_cdata_cons (λ _, true)).
  - by induction s.
  - intros c. split_char c; try done. by plain_char.
Qed.

Lemma no_lt_write_data (s : string) : Str.lacks "<" (minidom.write_data s) = true.
Proof.
  unfold Str.lacks.
  rewrite (forallb_pieces _ minidom.write_data eq_refl write_data_cons (λ _, true)).
  - by induction s.
  - intros c. split_char c; try done. by plain_char.
Qed.

Lemma no_gt_write_data (s : string) : Str.lacks ">" (minidom.write_data s) = true.
Proof.
  unfold Str.lacks.
  rewrite (forallb_pieces _ minidom.write_data eq_refl write_data_cons (λ _, true)).
  - by induction s.
  - intros c. split_char c; try done. by plain_char.
Qed.

Lemma no_cdata_end (s : string) :
  Str.lacks ">" s = true → has_cdata_end s = false.
Proof.
  unfold Str.lacks. induction s as [|a s IH]; [done|].
  cbn [has_cdata_end Str.forallb]. intros [Ha Hs]%andb_true_iff.
  rewrite (IH Hs), orb_false_r.
  destruct s as [|b [|c s']]; [done..|].
  cbn in Hs |- *. apply andb_true_iff in Hs as [_ [Hc _]%andb_true_iff].
  apply negb_true_iff in Hc. rewrite Hc. by rewrite andb_false_r.
Qed.

(** Line ends *)

Lemma normalize_newlines_xml_char (b : bool) (s : string) :
  Str.forallb Char.is_xml_char s = true →
  Str.forallb Char.is_xml_char (normalize_newlines b s) = true.
Proof.
  revert b. induction s as [|c s IH]; intros b; [done|].
  cbn [Str.forallb normalize_newlines].
  intros [Hc Hs]%andb_true_iff.
  destruct (Ascii.eqb c Char.CR); [cbn [Str.forallb]; by rewrite IH|].
  destruct (Ascii.eqb c Char.LF); [destruct b; cbn [Str.forallb]; by rewrite IH|].
  cbn [Str.forallb]. by rewrite Hc, IH.
Qed.

Lemma normalize_newlines_no_cr (b : bool) (s : string) :
  Str.lacks Char.CR (normalize_newlines b s) = true.
Proof.
  unfold Str.lacks. revert b. induction s as [|c s IH]; intros b; [done|]. cbn.
  destruct (Ascii.eqb c Char.CR) eqn:E1; [cbn; by rewrite IH|].
  destruct (Ascii.eqb c Char.LF) eqn:E2; [destruct b; cbn; by rewrite IH|].
  cbn. rewrite E1. cbn. by rewrite IH.
Qed.

Lemma normalize_newlines_id (s : string) :
  Str.lacks Char.CR s = true → normalize_newlines false s = s.
Proof.
  unfold Str.lacks. induction s as [|c s IH]; [done|]. cbn.
  intros [Hc Hs]%andb_true_iff. apply negb_true_iff in Hc. rewrite Hc.
  rewrite (IH Hs). by destruct (Ascii.eqb_spec c Char.LF) as [->|].
Qed.

Lemma normalize_newlines_nonempty (s : string) :
  Str.is_empty (normalize_newlines false s) = Str.is_empty s.
Proof.
  destruct s as [|c s]; [done|]. cbn.
  destruct (Ascii.eqb c Char.CR); [done|]. by destruct (Ascii.eqb c Char.LF).
Qed.

Lemma no_apos_html_escape (s : string) :
  Str.lacks Char.APOS (html_escape s) = true.
Proof.
  unfold Str.lacks.
  rewrite (forallb_pieces _ html_escape eq_refl html_escape_cons (λ _, true)).
  - by induction s.
  - intros c. split_char c; try done. by plain_char.
Qed.

Lemma no_quot_html_escape (s : string) :
  Str.lacks Char.QUOT (html_escape s) = true.
Proof.
  unfold Str.lacks.
  rewrite (forallb_pieces _ html_escape eq_refl html_escape_cons (λ _, true)).
  - by induction s.
  - intros c. split_char c; try done. by plain_char.
Qed.

Lemma no_lt_html_escape (s : string) : Str.lacks "<" (html_escape s) = true.
Proof.
  unfold Str.lacks.
  rewrite (forallb_pieces _ html_escape eq_refl html_escape_cons (λ _, true)).
  - by induction s.
  - intros c. split_char c; try done. by plain_char.
Qed.

Lemma no_gt_html_escape (s : string) : Str.lacks ">" (html_escape s) = true.
Proof.
  unfold Str.lacks.
  rewrite (forallb_pieces _ html_escape eq_refl html_escape_cons (λ _, true)).
  - by induction s.
  - intros c. split_char c; try done. by plain_char.
Qed.

Lemma no_cr_html_escape (s : string) :
  Str.lacks Char.CR (html_escape s) = Str.lacks Char.CR s.
Proof.
  unfold Str.lacks.
  apply (forallb_pieces _ html_escape eq_refl html_escape_cons).
  intros c. split_char c; try done. by plain_char.
Qed.

Lemma no_cr_escape_cdata (s : string) :
  Str.lacks Char.CR (escape_cdata s) = Str.lacks Char.CR s.
Proof.
  unfold Str.lacks.
  apply (forallb_pieces _ escape_cdata eq_refl escape_cdata_cons).
  intros c. split_char c; try done. by plain_char.
Qed.

(** Escaping never shortens a text, and lengthens one with an ampersand. *)

Lemma length_pieces (esc : string → string) :
  esc "" = "" →
  (∀ c s, esc (String c s) = esc (String c "") +:+ esc s) →
  (∀ c, 1 ≤ String.length (esc (String c ""))) →
  ∀ s, String.length s ≤ String.length (esc s).
Proof.
  intros Hnil Hcons Hone s. induction s as [|c s IH].
  - by rewrite Hnil.
  - rewrite Hcons, slength_app. cbn. specialize (Hone c). lia.
Qed.

Lemma length_pieces_grows (esc : string → string) (x : ascii) :
  esc "" = "" →
  (∀ c s, esc (String c s) = esc (String c "") +:+ esc s) →
  (∀ c, 1 ≤ String.length (esc (String c ""))) →
  2 ≤ String.length (esc (String x "")) →
  ∀ s, Str.lacks x s = false → String.length s < String.length (esc s).
Proof.
  intros Hnil Hcons Hone Hx s. unfold Str.lacks. induction s as [|c s IH]; [done|].
  cbn [Str.forallb]. rewrite Hcons, slength_app. cbn [String.length].
  pose proof (length_pieces esc Hnil Hcons Hone s) as Hs.
  destruct (Ascii.eqb_spec c x) as [->|Hc]; cbn [negb andb].
  - intros _. lia.
  - intros H%IH. specialize (Hone c). lia.
Qed.

Lemma length_char_html_escape (c : ascii) :
  1 ≤ String.length (html_escape (String c "")).
Proof. split_char c; try (cbn; lia). plain_char. lia. Qed.

Lemma length_char_escape_cdata (c : ascii) :
  1 ≤ String.length (escape_cdata (String c "")).
Proof. split_char c; try (cbn; lia). plain_char. lia. Qed.

Lemma length_html_escape (s : string) :
  String.length s ≤ String.length (html_escape s).
Proof.
  apply (length_pieces html_escape eq_refl html_escape_cons length_char_html_escape).
Qed.

Lemma length_html_escape_amp (s : string) :
  Str.lacks "&" s = false → String.length s < String.length (html_escape s).
Proof.
  apply (length_pieces_grows html_escape "&" eq_refl html_escape_cons
           length_char_html_escape).
  cbn. lia.
Qed.

Lemma length_escape_cdata (s : string) :
  String.length s ≤ String.length (escape_cdata s).
Proof.
  apply (length_pieces escape_cdata eq_refl escape_cdata_cons length_char_escape_cdata).
Qed.

Lemma length_escape_cdata_amp (s : string) :
  Str.lacks "&" s = false → String.length s < String.length (escape_cdata s).
Proof.
  apply (length_pieces_grows escape_cdata "&" eq_refl escape_cdata_cons
           length_char_escape_cdata).
  cbn. lia.
Qed.

Lemma normalize_newlines_lacks (x : ascii) (b : bool) (s : string) :
  x ≠ Char.LF → Str.lacks x s = true →
  Str.lacks x (normalize_newlines b s) = true.
Proof.
  intros Hx%Ascii.eqb_neq. rewrite Ascii.eqb_sym in Hx.
  unfold Str.lacks. revert b. induction s as [|c s IH]; intros b; [done|].
  cbn [Str.forallb normalize_newlines]. intros [Hc Hs]%andb_true_iff.
  destruct (Ascii.eqb c Char.CR); [cbn [Str.forallb]; by rewrite Hx, IH|].
  destruct (Ascii.eqb c Char.LF);
    [destruct b; cbn [Str.forallb]; by rewrite ?Hx, IH|].
  cbn [Str.forallb]. by rewrite Hc, IH.
Qed.

(** What the parser hands on for a text that a serializer has escaped. *)

Lemma decode_text_escape_cdata (t : string) :
  Str.forallb Char.is_xml_char t = true →
  decode_text (escape_cdata t) = inr (normalize_newlines false t).
Proof.
  intros Ht. unfold decode_text.
  rewrite xml_char_escape_cdata, Ht, (no_cdata_end _ (no_gt_escape_cdata t)).
  cbn. by rewrite decode_escape_cdata.
Qed.

Lemma decode_text_write_data (t : string) :
  Str.forallb Char.is_xml_char t = true →
  decode_text (minidom.write_data t) = inr (normalize_newlines false t).
Proof.
  intros Ht. unfold decode_text.
  rewrite xml_char_write_data, Ht, (no_cdata_end _ (no_gt_write_data t)).
  cbn. by rewrite decode_write_data.
Qed.

End CharacterData.

(** ** The tokenizer on rendered pieces *)

Section Lexing.

Import Xml.

Lemma render_app (a b : list seg) : render (a ++ b) = render a +:+ render b.
Proof.
  induction a as [|[body|raw] a IH]; [done|..]; cbn [render app].
  - rewrite IH. by rewrite !sapp_assoc.
  - rewrite IH. by rewrite sapp_assoc.
Qed.

Lemma split_text_run (raw acc rest : string) :
  Str.lacks "<" raw = true →
  split (InText acc) (raw +:+ rest) = split (InText (acc +:+ raw)) rest.
Proof.
  unfold Str.lacks. revert acc. induction raw as [|c raw IH]; intros acc.
  - intros _. by rewrite sapp_nil_r.
  - cbn. intros [Hc Hraw]%andb_true_iff. apply negb_true_iff in Hc.
    rewrite Hc, IH by done. by rewrite sapp_snoc.
Qed.

Lemma split_tag_run (body acc rest : string) :
  Str.lacks ">" body = true →
  split (InTag acc) (body +:+ String ">" rest)
  = (λ r, STag (acc +:+ body) :: r) <$> split (InText "") rest.
Proof.
  unfold Str.lacks. revert acc. induction body as [|c body IH]; intros acc.
  - intros _. cbn. by rewrite sapp_nil_r.
  - cbn. intros [Hc Hbody]%andb_true_iff. apply negb_true_iff in Hc.
    rewrite Hc, IH by done. by rewrite sapp_snoc.
Qed.

Lemma splits_nil : Splits [].
Proof. by intros rest rsgs H. Qed.

Lemma splits_app (a b : list seg) : Splits a → Splits b → Splits (a ++ b).
Proof.
  intros Ha Hb rest rsgs H. rewrite render_app, sapp_assoc, <- (assoc_L (++)).
  apply Ha, Hb, H.
Qed.

Lemma splits_tag (body : string) :
  Str.lacks ">" body = true → Splits [STag body].
Proof.
  intros Hb rest rsgs H. cbn [render]. rewrite sapp_nil_r.
  cbn. rewrite sapp_assoc. cbn. rewrite split_tag_run, H by done. done.
Qed.

Lemma splits_text_tag (raw body : string) :
  Str.is_empty raw = false → Str.lacks "<" raw = true →
  Str.lacks ">" body = true → Splits [SText raw; STag body].
Proof.
  intros Hne Hraw Hb rest rsgs H. cbn [render]. rewrite sapp_nil_r.
  rewrite !sapp_assoc, split_text_run by done. cbn.
  rewrite split_tag_run, H by done. cbn. unfold text_seg. by rewrite Hne.
Qed.

Lemma splits_cons_tag (body : string) (sgs : list seg) :
  Str.lacks ">" body = true → Splits sgs → Splits (STag body :: sgs).
Proof. intros. apply (splits_app [_]); [by apply splits_tag|done]. Qed.

Lemma splits_cons_text_tag (raw body : string) (sgs : list seg) :
  Str.is_empty raw = false → Str.lacks "<" raw = true →
  Str.lacks ">" body = true → Splits sgs →
  Splits (SText raw :: STag body :: sgs).
Proof. intros. apply (splits_app [_; _]); [by apply splits_text_tag|done]. Qed.

Lemma splits_flat_map {A} (f : A → list seg) (l : list A) :
  Forall (λ x, Splits (f x)) l → Splits (flat_map f l).
Proof.
  induction 1 as [|x l Hx _ IH]; [apply splits_nil|].
  cbn. by apply splits_app.
Qed.

Lemma tokens_of_app (a b : list seg) (ta tb : list token) :
  tokens_of a = inr ta → tokens_of b = inr tb →
  tokens_of (a ++ b) = inr (ta ++ tb).
Proof.
  revert ta. induction a as [|sg a IH]; intros ta; cbn.
  - by intros [= <-].
  - destruct (token_of sg) as [e|t]; [done|].
    destruct (tokens_of a) as [e|ts]; [done|].
    intros [= <-] Hb. by rewrite (IH ts eq_refl Hb).
Qed.

Lemma tokens_of_flat_map {A} (f : A → list seg) (g : A → list token) (l : list A) :
  Forall (λ x, tokens_of (f x) = inr (g x)) l →
  tokens_of (flat_map f l) = inr (flat_map g l).
Proof.
  induction 1 as [|x l Hx _ IH]; [done|]. cbn. by apply tokens_of_app.
Qed.

End Lexing.

(** ** The document builder on the tokens of a node *)

Section Building.

Import Xml.

Lemma node_ind_kids (P : node → Prop) :
  (∀ d, P (NText d)) →
  (∀ tg kids, Forall P kids → P (NElem tg kids)) →
  ∀ n, P n.
Proof.
  intros Htext Helem. fix IH 1. intros [tg kids|d]; [|apply Htext].
  apply Helem. induction kids as [|k kids IHk]; constructor; [apply IH|apply IHk].
Qed.

Lemma tokens_elem (tg : string) (k : node) (kids : list node) :
  tokens (NElem tg (k :: kids))
  = TOpen tg :: tokens_list (k :: kids) ++ [TClose tg].
Proof.
  assert (H : ∀ l, (fix go (ks : list node) : list token :=
                      match ks with
                      | [] => []
                      | k :: ks' => tokens k ++ go ks'
                      end) l = tokens_list l).
  { induction l as [|x l IH]; [done|]. cbn. by rewrite IH. }
  change (tokens (NElem tg (k :: kids)))
    with (TOpen tg ::
          (fix go (ks : list node) : list token :=
             match ks with
             | [] => []
             | k :: ks' => tokens k ++ go ks'
             end) (k :: kids) ++ [TClose tg]).
  by rewrite H.
Qed.

(** Inside an open element the tokens of a node add that node to the
    children read so far. *)
Lemma build_node (n : node) :
  ∀ tg acc open root rest,
    build ((tg, acc) :: open) root (tokens n ++ rest)
    = build ((tg, acc ++ [n]) :: open) root rest.
Proof.
  induction n as [d|t kids IH] using node_ind_kids; intros tg acc open root rest.
  - done.
  - destruct kids as [|k kids]; [done|].
    rewrite tokens_elem. cbn [app build].
    assert (Hkids : ∀ ks acc',
              Forall (λ n, ∀ tg acc open root rest,
                        build ((tg, acc) :: open) root (tokens n ++ rest)
                        = build ((tg, acc ++ [n]) :: open) root rest) ks →
              build ((t, acc') :: (tg, acc) :: open) root
                ((tokens_list ks ++ [TClose t]) ++ rest)
              = build ((tg, acc ++ [NElem t (acc' ++ ks)]) :: open) root rest).
    { clear. induction ks as [|x ks IHks]; intros acc' HF.
      - cbn. rewrite bool_decide_true by done. by rewrite app_nil_r.
      - apply Forall_cons in HF as [Hx HF].
        unfold tokens_list. cbn [flat_map]. rewrite <- !(assoc_L (++)).
        rewrite Hx. fold (tokens_list ks). rewrite (assoc_L (++)).
        rewrite IHks by done. by rewrite <- (assoc_L (++)). }
    apply (Hkids (k :: kids) [] IH).
Qed.

Lemma build_nodes (ks : list node) :
  ∀ tg acc open root rest,
    build ((tg, acc) :: open) root (tokens_list ks ++ rest)
    = build ((tg, acc ++ ks) :: open) root rest.
Proof.
  induction ks as [|k ks IH]; intros tg acc open root rest.
  - cbn. by rewrite app_nil_r.
  - unfold tokens_list. cbn [flat_map]. rewrite <- (assoc_L (++)), build_node.
    fold (tokens_list ks). rewrite IH. by rewrite <- (assoc_L (++)).
Qed.

(** The tokens of an element, read at the top of a document that has no
    document element yet, make it the document element. *)
Lemma build_document_element (tg : string) (kids : list node) (rest : list token) :
  build [] None (tokens (NElem tg kids) ++ rest)
  = build [] (Some (NElem tg kids)) rest.
Proof.
  destruct kids as [|k kids]; [done|].
  rewrite tokens_elem. cbn [app build].
  rewrite <- (assoc_L (++)), build_nodes. cbn.
  by rewrite bool_decide_true.
Qed.

End Building.

(** ** Tags *)

Section Tags.

Import Xml.

Lemma unsnoc_snoc (s : string) (l : ascii) :
  Str.unsnoc (s +:+ String l "") = Some (s, l).
Proof. induction s as [|c s IH]; [done|]. cbn. by rewrite IH. Qed.

Lemma unsnoc_last (p : ascii → bool) (s i : string) (l : ascii) :
  Str.forallb p s = true → Str.unsnoc s = Some (i, l) → p l = true.
Proof.
  revert i. induction s as [|c s IH]; intros i; [done|]. cbn.
  intros [Hc Hs]%andb_true_iff.
  destruct (Str.unsnoc s) as [[i' l']|]; intros [= <- <-]; eauto.
Qed.

Lemma unsnoc_is_Some (c : ascii) (s : string) : is_Some (Str.unsnoc (String c s)).
Proof. cbn. destruct (Str.unsnoc s) as [[i l]|]; eauto. Qed.

Lemma rstrip_id (s : string) :
  Str.forallb (λ c, negb (Char.is_space c)) s = true → Str.rstrip s = s.
Proof.
  induction s as [|c s IH]; [done|]. cbn.
  intros [Hc Hs]%andb_true_iff. apply negb_true_iff in Hc.
  by rewrite (IH Hs), Hc, andb_false_r.
Qed.

Lemma rstrip_blank (s : string) :
  Str.forallb (λ c, negb (Char.is_space c)) s = true →
  Str.rstrip (s +:+ " ") = s.
Proof.
  induction s as [|c s IH]; [done|]. cbn.
  intros [Hc Hs]%andb_true_iff. apply negb_true_iff in Hc.
  by rewrite (IH Hs), Hc, andb_false_r.
Qed.

Lemma name_char_facts (c : ascii) :
  Char.is_name_char c = true →
  Char.is_space c = false ∧ Ascii.eqb c "/" = false
  ∧ Ascii.eqb c ">" = false ∧ Ascii.eqb c "?" = false.
Proof. destruct c as [[] [] [] [] [] [] [] []]; by vm_compute. Qed.

Lemma name_start_char (c : ascii) :
  Char.is_name_start c = true → Char.is_name_char c = true.
Proof. unfold Char.is_name_char. by intros ->. Qed.

Lemma is_name_chars (n : string) :
  is_name n = true → Str.forallb Char.is_name_char n = true.
Proof.
  destruct n as [|c n]; [done|]. cbn.
  intros [Hc Hn]%andb_true_iff. by rewrite (name_start_char _ Hc), Hn.
Qed.

Lemma is_name_no_space (n : string) :
  is_name n = true → Str.forallb (λ c, negb (Char.is_space c)) n = true.
Proof.
  intros H%is_name_chars. eapply sforallb_impl; [|done].
  intros c Hc. by destruct (name_char_facts c Hc) as (-> & _).
Qed.

Lemma is_name_no_gt (n : string) : is_name n = true → Str.lacks ">" n = true.
Proof.
  intros H%is_name_chars. eapply sforallb_impl; [|done].
  intros c Hc. by destruct (name_char_facts c Hc) as (_ & _ & -> & _).
Qed.

Lemma classify_open (n : string) : is_name n = true → classify n = inr (TOpen n).
Proof.
  intros Hn. pose proof (is_name_chars n Hn) as Hchars.
  destruct n as [|c n]; [done|]. unfold classify.
  assert (Hc : Char.is_name_char c = true).
  { cbn in Hchars. by apply andb_true_iff in Hchars as [-> _]. }
  destruct (name_char_facts c Hc) as (_ & -> & _ & ->).
  destruct (unsnoc_is_Some c n) as [[i l] Hu]. rewrite Hu.
  destruct (name_char_facts l (unsnoc_last _ _ _ _ Hchars Hu)) as (_ & -> & _).
  by rewrite (rstrip_id _ (is_name_no_space _ Hn)), Hn.
Qed.

Lemma classify_close (n : string) :
  is_name n = true → classify ("/" +:+ n) = inr (TClose n).
Proof.
  intros Hn. cbn. by rewrite (rstrip_id _ (is_name_no_space _ Hn)), Hn.
Qed.

Lemma classify_empty (n : string) :
  is_name n = true → classify (n +:+ "/") = inr (TEmpty n).
Proof.
  intros Hn. pose proof (is_name_chars n Hn) as Hchars.
  destruct n as [|c n]; [done|].
  assert (Hc : Char.is_name_char c = true).
  { cbn in Hchars. by apply andb_true_iff in Hchars as [-> _]. }
  rewrite sapp_cons. unfold classify.
  destruct (name_char_facts c Hc) as (_ & -> & _ & ->).
  rewrite <- sapp_cons, unsnoc_snoc. cbn [Ascii.eqb Bool.eqb].
  change (Ascii.eqb "/" "/") with true. cbn match.
  by rewrite (rstrip_id _ (is_name_no_space _ Hn)), Hn.
Qed.

Lemma classify_empty_blank (n : string) :
  is_name n = true → classify (n +:+ " /") = inr (TEmpty n).
Proof.
  intros Hn. pose proof (is_name_chars n Hn) as Hchars.
  destruct n as [|c n]; [done|].
  assert (Hc : Char.is_name_char c = true).
  { cbn in Hchars. by apply andb_true_iff in Hchars as [-> _]. }
  change (String c n +:+ " /") with (String c (n +:+ " /")). unfold classify.
  destruct (name_char_facts c Hc) as (_ & -> & _ & ->).
  change (String c (n +:+ " /")) with (String c n +:+ " /").
  replace (String c n +:+ " /") with ((String c n +:+ " ") +:+ "/")
    by by rewrite sapp_assoc.
  rewrite unsnoc_snoc.
  change (Ascii.eqb "/" "/") with true. cbn match.
  by rewrite (rstrip_blank _ (is_name_no_space _ Hn)), Hn.
Qed.

Lemma no_gt_snoc (n tl : string) :
  Str.lacks ">" n = true → Str.lacks ">" tl = true →
  Str.lacks ">" (n +:+ tl) = true.
Proof. unfold Str.lacks. intros Hn Ht. by rewrite sforallb_app, Hn, Ht. Qed.

End Tags.

(** ** The raw XML text of a table and its first parse *)

Section RawText.

Import Xml.

Lemma serialize_xml_unfold (e : Element) :
  serialize_xml e
  = "<" +:+ tag e +:+
    (if truthy (text e) || negb (bool_decide (children e = []))
     then ">" +:+ write_cdata (text e) +:+
          Str.concat (serialize_xml <$> children e) +:+
          "</" +:+ tag e +:+ ">"
     else " />") +:+
    write_cdata (tail e).
Proof.
  destruct e as [tg tx ch tl]. cbn [serialize_xml tag text children tail].
  assert (H : ∀ l, (fix go (cs : list Element) : string :=
                      match cs with
                      | [] => ""
                      | c :: cs' => serialize_xml c +:+ go cs'
                      end) l = Str.concat (serialize_xml <$> l)).
  { induction l as [|x l IH]; [done|]. cbn. by rewrite IH. }
  by rewrite H.
Qed.

Lemma concat_render {A} (f : A → string) (g : A → list seg) (l : list A) :
  (∀ x, f x = render (g x)) →
  Str.concat (f <$> l) = render (flat_map g l).
Proof.
  intros H. induction l as [|x l IH]; [done|].
  cbn. by rewrite render_app, H, IH.
Qed.

Lemma serialize_leaf (l : string * string) :
  serialize_xml (leaf_element l) = render (leaf_csegs l).
Proof.
  destruct l as [c t]. rewrite serialize_xml_unfold. unfold leaf_csegs. cbn.
  destruct (Str.is_empty t); cbn; rewrite ?sapp_assoc, ?sapp_nil_r; done.
Qed.

Lemma serialize_item (ls : list (string * string)) :
  serialize_xml (item_element ls) = render (item_csegs ls).
Proof.
  rewrite serialize_xml_unfold. cbn [item_element tag text children tail].
  destruct ls as [|l ls]; [done|].
  rewrite <- list_fmap_compose, (concat_render _ leaf_csegs) by apply serialize_leaf.
  unfold item_csegs. cbn [render truthy write_cdata orb].
  rewrite bool_decide_false by done. cbn [negb].
  rewrite render_app. cbn [render]. by rewrite ?sapp_assoc, ?sapp_nil_r.
Qed.

Lemma tostring_root (d : list (list (string * string))) :
  ET.tostring (root_element d) = render (root_csegs d).
Proof.
  unfold ET.tostring. rewrite serialize_xml_unfold.
  cbn [root_element tag text children tail].
  destruct d as [|ls d]; [done|].
  rewrite <- list_fmap_compose, (concat_render _ item_csegs) by apply serialize_item.
  unfold root_csegs. cbn [render truthy write_cdata orb].
  rewrite bool_decide_false by done. cbn [negb].
  rewrite render_app. cbn [render]. by rewrite ?sapp_assoc, ?sapp_nil_r.
Qed.

Lemma forallb_elem {A} (f : A → bool) (l : list A) (x : A) :
  forallb f l = true → x ∈ l → f x = true.
Proof.
  rewrite forallb_forall. intros H Hx. apply H. by apply list_elem_of_In.
Qed.

Lemma valid_leaf_name (l : string * string) :
  valid_leaf l = true → is_name l.1 = true.
Proof. by intros [? _]%andb_true_iff. Qed.

Lemma valid_leaf_chars (l : string * string) :
  valid_leaf l = true → Str.forallb Char.is_xml_char l.2 = true.
Proof. by intros [_ ?]%andb_true_iff. Qed.

Lemma no_gt_close (n : string) :
  is_name n = true → Str.lacks ">" ("/" +:+ n) = true.
Proof. intros H. by apply (no_gt_snoc "/"), is_name_no_gt. Qed.

Lemma is_empty_escape_cdata (t : string) :
  Str.is_empty (escape_cdata t) = Str.is_empty t.
Proof.
  destruct t as [|c t]; [done|]. rewrite escape_cdata_cons.
  destruct (Ascii.eqb_spec c "&") as [->|H1]; [done|].
  destruct (Ascii.eqb_spec c "<") as [->|H2]; [done|].
  destruct (Ascii.eqb_spec c ">") as [->|H3]; [done|].
  apply Ascii.eqb_neq in H1, H2, H3. cbn. rewrite H1. cbn. rewrite H2. cbn.
  by rewrite H3.
Qed.

Lemma splits_leaf (l : string * string) :
  gt_free_leaf l = true → Splits (leaf_csegs l).
Proof.
  unfold gt_free_leaf. intros Hn. unfold leaf_csegs.
  destruct (Str.is_empty l.2) eqn:He.
  - by apply splits_tag, no_gt_snoc.
  - apply splits_cons_tag; [done|].
    apply splits_text_tag.
    + by rewrite is_empty_escape_cdata.
    + apply no_lt_escape_cdata.
    + by apply (no_gt_snoc "/").
Qed.

Lemma splits_item (ls : list (string * string)) :
  forallb gt_free_leaf ls = true → Splits (item_csegs ls).
Proof.
  intros H. unfold item_csegs. destruct ls as [|l ls]; [by apply splits_tag|].
  apply splits_cons_tag; [done|]. apply splits_app; [|by apply splits_tag].
  apply splits_flat_map, Forall_forall. intros x Hx. apply splits_leaf.
  by apply (forallb_elem _ _ _ H).
Qed.

Lemma splits_root (d : list (list (string * string))) :
  forallb (forallb gt_free_leaf) d = true → Splits (root_csegs d).
Proof.
  intros H. unfold root_csegs. destruct d as [|ls d]; [by apply splits_tag|].
  apply splits_cons_tag; [done|]. apply splits_app; [|by apply splits_tag].
  apply splits_flat_map, Forall_forall. intros x Hx. apply splits_item.
  by apply (forallb_elem _ _ _ H).
Qed.

Lemma forallb_forallb_mono {A} (f g : A → bool) (d : list (list A)) :
  (∀ x, f x = true → g x = true) →
  forallb (forallb f) d = true → forallb (forallb g) d = true.
Proof.
  intros H. rewrite !forallb_forall. intros Hd l Hl. specialize (Hd l Hl).
  rewrite forallb_forall in Hd |- *. auto.
Qed.

Lemma valid_gt_free (d : list (list (string * string))) :
  valid_leaves d = true → forallb (forallb gt_free_leaf) d = true.
Proof.
  apply forallb_forallb_mono. intros l Hl%valid_leaf_name.
  by apply is_name_no_gt.
Qed.

Lemma word_char_facts (c : ascii) :
  Char.is_word c = true →
  Char.is_space c = false ∧ Ascii.eqb c "/" = false
  ∧ Ascii.eqb c ">" = false ∧ Ascii.eqb c "?" = false.
Proof. destruct c as [[] [] [] [] [] [] [] []]; by vm_compute. Qed.

Lemma word_gt_free (d : list (list (string * string))) :
  word_leaves d = true → forallb (forallb gt_free_leaf) d = true.
Proof.
  apply forallb_forallb_mono. intros l Hl. unfold gt_free_leaf, Str.lacks.
  eapply sforallb_impl; [|exact Hl].
  intros c Hc. by destruct (word_char_facts c Hc) as (_ & _ & -> & _).
Qed.

Lemma tokens_elem_nonempty (tg : string) (kids : list node) :
  kids ≠ [] →
  tokens (NElem tg kids) = TOpen tg :: tokens_list kids ++ [TClose tg].
Proof. destruct kids; [done|]. intros _. apply tokens_elem. Qed.

Lemma tokens_list_fmap {A} (f : A → node) (l : list A) :
  tokens_list (f <$> l) = flat_map (λ x, tokens (f x)) l.
Proof. unfold tokens_list. induction l as [|x l IH]; [done|]. cbn. by rewrite IH. Qed.

Lemma tokens_of_leaf (l : string * string) :
  valid_leaf l = true →
  tokens_of (leaf_csegs l) = inr (tokens (leaf_node (parsed_leaf l))).
Proof.
  intros H. pose proof (valid_leaf_name l H) as Hn.
  pose proof (valid_leaf_chars l H) as Hc.
  unfold leaf_csegs, leaf_node, parsed_leaf. cbn [fst snd].
  rewrite normalize_newlines_nonempty.
  destruct (Str.is_empty l.2) eqn:He; cbn [tokens_of token_of].
  - by rewrite classify_empty_blank.
  - by rewrite classify_open, decode_text_escape_cdata, classify_close.
Qed.

Lemma tokens_of_item (ls : list (string * string)) :
  forallb valid_leaf ls = true →
  tokens_of (item_csegs ls) = inr (tokens (item_node (parsed_leaf <$> ls))).
Proof.
  intros H. unfold item_csegs, item_node. destruct ls as [|l ls]; [done|].
  rewrite tokens_elem_nonempty by done.
  rewrite <- list_fmap_compose, tokens_list_fmap.
  apply (tokens_of_app [_] _ [_]); [done|].
  apply tokens_of_app; [|done].
  apply tokens_of_flat_map, Forall_forall. intros x Hx.
  apply tokens_of_leaf. by apply (forallb_elem _ _ _ H).
Qed.

Lemma tokens_of_root (d : list (list (string * string))) :
  valid_leaves d = true →
  tokens_of (root_csegs d) = inr (tokens (root_node (parsed_leaves d))).
Proof.
  intros H. unfold root_csegs, root_node, parsed_leaves.
  destruct d as [|ls d]; [done|].
  rewrite tokens_elem_nonempty by done.
  rewrite <- list_fmap_compose, tokens_list_fmap.
  apply (tokens_of_app [_] _ [_]); [done|].
  apply tokens_of_app; [|done].
  apply tokens_of_flat_map, Forall_forall. intros x Hx.
  apply tokens_of_item. by apply (forallb_elem _ _ _ H).
Qed.

Lemma lex_render (sgs : list seg) :
  Splits sgs → lex (render sgs) = tokens_of sgs.
Proof.
  intros H. unfold lex.
  rewrite <- (sapp_nil_r (render sgs)), (H "" [] eq_refl).
  by rewrite (right_id_L [] (++)).
Qed.

Lemma parse_tokens (tg : string) (kids : list node) (s : string) :
  lex s = inr (tokens (NElem tg kids)) → parse s = inr (NElem tg kids).
Proof.
  intros H. unfold parse. rewrite H.
  transitivity (build [] None (tokens (NElem tg kids) ++ [])).
  - rewrite (right_id_L [] (++)). destruct kids as [|k kids]; [done|].
    by rewrite tokens_elem.
  - by rewrite build_document_element.
Qed.

(** The first parse of the raw text of a table that has valid leaves. *)
Lemma parse_tostring (d : list (list (string * string))) :
  valid_leaves d = true →
  Xml.parse (ET.tostring (root_element d)) = inr (root_node (parsed_leaves d)).
Proof.
  intros H. apply parse_tokens.
  rewrite tostring_root, lex_render by by apply splits_root, valid_gt_free.
  by apply tokens_of_root.
Qed.

(** The converse: a raw text that the parser accepts has valid leaves. *)

Lemma tokens_of_app_inv (a b : list seg) (ts : list token) :
  tokens_of (a ++ b) = inr ts →
  ∃ ta tb, tokens_of a = inr ta ∧ tokens_of b = inr tb.
Proof.
  revert ts. induction a as [|sg a IH]; intros ts; cbn; [by eauto|].
  destruct (token_of sg) as [e|t]; [done|].
  destruct (tokens_of (a ++ b)) as [e|ts'] eqn:Hab; [done|]. intros _.
  destruct (IH ts' eq_refl) as (ta & tb & -> & ->). eauto.
Qed.

Lemma tokens_of_flat_map_inv {A} (f : A → list seg) (l : list A) (ts : list token) :
  tokens_of (flat_map f l) = inr ts →
  Forall (λ x, ∃ t, tokens_of (f x) = inr t) l.
Proof.
  revert ts. induction l as [|x l IH]; intros ts; [by constructor|]. cbn.
  intros (ta & tb & Ha & Hb)%tokens_of_app_inv. constructor; eauto.
Qed.

Lemma word_no_space (s : string) :
  Str.forallb Char.is_word s = true →
  Str.forallb (λ c, negb (Char.is_space c)) s = true.
Proof.
  apply sforallb_impl. intros c Hc.
  by destruct (word_char_facts c Hc) as (-> & _).
Qed.

Lemma classify_word_name (c : string) (t : token) :
  Str.forallb Char.is_word c = true → classify c = inr t → is_name c = true.
Proof.
  intros Hw. pose proof (word_no_space c Hw) as Hsp.
  destruct c as [|x r]; [done|]. unfold classify.
  assert (Hx : Char.is_word x = true).
  { cbn in Hw. by apply andb_true_iff in Hw as [-> _]. }
  destruct (word_char_facts x Hx) as (_ & -> & _ & ->).
  destruct (unsnoc_is_Some x r) as [[i l] Hu]. rewrite Hu.
  destruct (word_char_facts l (unsnoc_last _ _ _ _ Hw Hu)) as (_ & -> & _).
  rewrite (rstrip_id _ Hsp). by destruct (is_name (String x r)).
Qed.

Lemma classify_word_name_blank (c : string) (t : token) :
  Str.forallb Char.is_word c = true →
  classify (c +:+ " /") = inr t → is_name c = true.
Proof.
  intros Hw. pose proof (word_no_space c Hw) as Hsp.
  destruct c as [|x r]; [done|].
  assert (Hx : Char.is_word x = true).
  { cbn in Hw. by apply andb_true_iff in Hw as [-> _]. }
  change (String x r +:+ " /") with (String x (r +:+ " /")). unfold classify.
  destruct (word_char_facts x Hx) as (_ & -> & _ & ->).
  change (String x (r +:+ " /")) with (String x r +:+ " /").
  replace (String x r +:+ " /") with ((String x r +:+ " ") +:+ "/")
    by by rewrite sapp_assoc.
  rewrite unsnoc_snoc.
  change (Ascii.eqb "/" "/") with true. cbv match.
  rewrite (rstrip_blank _ Hsp). by destruct (is_name (String x r)).
Qed.

Lemma decode_text_escape_cdata_inv (t d : string) :
  decode_text (escape_cdata t) = inr d → Str.forallb Char.is_xml_char t = true.
Proof.
  unfold decode_text. rewrite xml_char_escape_cdata.
  by destruct (Str.forallb Char.is_xml_char t).
Qed.

Lemma tokens_of_leaf_inv (l : string * string) (ts : list token) :
  word_leaf l = true → tokens_of (leaf_csegs l) = inr ts → valid_leaf l = true.
Proof.
  unfold word_leaf, leaf_csegs, valid_leaf. intros Hw.
  destruct l as [c t]. cbn [fst snd] in *.
  destruct (Str.is_empty t) eqn:He; cbn [tokens_of token_of].
  - destruct t; [|done].
    destruct (classify (c +:+ " /")) as [e|tk] eqn:Hc; [done|]. intros _.
    by rewrite (classify_word_name_blank c tk).
  - destruct (classify c) as [e|tk] eqn:Hc; [done|].
    destruct (decode_text (escape_cdata t)) as [e|d] eqn:Hd; [done|]. intros _.
    by rewrite (classify_word_name c tk), (decode_text_escape_cdata_inv t d).
Qed.

Lemma tokens_of_item_inv (ls : list (string * string)) (ts : list token) :
  forallb word_leaf ls = true → tokens_of (item_csegs ls) = inr ts →
  forallb valid_leaf ls = true.
Proof.
  intros Hw. unfold item_csegs. destruct ls as [|l ls]; [done|].
  intros (_ & tb & _ & (ta & _ & Ha & _)%tokens_of_app_inv)%(tokens_of_app_inv [_]).
  apply tokens_of_flat_map_inv in Ha. rewrite Forall_forall in Ha.
  apply forallb_forall. intros x Hx%list_elem_of_In.
  destruct (Ha x Hx) as [t Ht]. apply (tokens_of_leaf_inv x t); [|done].
  by apply (forallb_elem _ _ _ Hw).
Qed.

Lemma tokens_of_root_inv (d : list (list (string * string))) (ts : list token) :
  word_leaves d = true → tokens_of (root_csegs d) = inr ts →
  valid_leaves d = true.
Proof.
  intros Hw. unfold root_csegs. destruct d as [|ls d]; [done|].
  intros (_ & tb & _ & (ta & _ & Ha & _)%tokens_of_app_inv)%(tokens_of_app_inv [_]).
  apply tokens_of_flat_map_inv in Ha. rewrite Forall_forall in Ha.
  apply forallb_forall. intros x Hx%list_elem_of_In.
  destruct (Ha x Hx) as [t Ht]. apply (tokens_of_item_inv x t); [|done].
  by apply (forallb_elem _ _ _ Hw).
Qed.

(** The parser rejects the raw text of a table that has an invalid leaf. *)
Lemma parse_tostring_rejects (d : list (list (string * string))) :
  word_leaves d = true → valid_leaves d = false →
  ∃ m, Xml.parse (ET.tostring (root_element d)) = inl m.
Proof.
  intros Hw Hinv. unfold Xml.parse.
  rewrite tostring_root, lex_render by by apply splits_root, word_gt_free.
  destruct (tokens_of (root_csegs d)) as [m|ts] eqn:Hts; [by eexists|].
  by rewrite (tokens_of_root_inv d ts) in Hinv.
Qed.

End RawText.

(** ** The pretty-printed text and its parse *)

Section PrettyText.

Import Xml.

Lemma writexml_unfold (ind add tg : string) (kids : list node) :
  minidom.writexml ind add (NElem tg kids)
  = ind +:+ "<" +:+ tg +:+
    match kids with
    | [] => "/>" +:+ minidom.newl
    | [NText d] =>
        ">" +:+ minidom.write_data d +:+ "</" +:+ tg +:+ ">" +:+ minidom.newl
    | _ =>
        ">" +:+ minidom.newl +:+
        Str.concat (minidom.writexml (ind +:+ add) add <$> kids) +:+
        ind +:+ "</" +:+ tg +:+ ">" +:+ minidom.newl
    end.
Proof.
  assert (H : ∀ l, (fix go (ks : list node) : string :=
                      match ks with
                      | [] => ""
                      | k :: ks' => minidom.writexml (ind +:+ add) add k +:+ go ks'
                      end) l
                   = Str.concat (minidom.writexml (ind +:+ add) add <$> l)).
  { induction l as [|x l IH]; [done|]. cbn. by rewrite IH. }
  cbn [minidom.writexml]. rewrite H. done.
Qed.

Lemma concat_indented {A} (w : A → string) (g : A → list seg)
    (ind : string) (l : list A) (rest : string) :
  (∀ x, w x = ind +:+ render (g x) +:+ minidom.newl) →
  minidom.newl +:+ Str.concat (w <$> l) +:+ rest
  = render (flat_map (λ x, SText (minidom.newl +:+ ind) :: g x) l)
    +:+ minidom.newl +:+ rest.
Proof.
  intros Hw. induction l as [|x l IH]; [done|].
  cbn [fmap list_fmap Str.concat flat_map app render].
  rewrite render_app, Hw, !sapp_assoc. by rewrite IH.
Qed.

Lemma writexml_leaf (ind add : string) (l : string * string) :
  minidom.writexml ind add (leaf_node l)
  = ind +:+ render (leaf_psegs l) +:+ minidom.newl.
Proof.
  unfold leaf_node, leaf_psegs. rewrite writexml_unfold.
  destruct (Str.is_empty l.2); cbn [render]; by rewrite ?sapp_assoc, ?sapp_nil_r.
Qed.

Lemma writexml_item (ls : list (string * string)) :
  minidom.writexml "  " "  " (item_node ls)
  = "  " +:+ render (item_psegs ls) +:+ minidom.newl.
Proof.
  unfold item_node, item_psegs. rewrite writexml_unfold.
  destruct ls as [|l ls]; [done|].
  change (leaf_node <$> l :: ls) with (leaf_node l :: (leaf_node <$> ls)).
  unfold leaf_node at 1. cbv match.
  fold (leaf_node l). change (leaf_node l :: (leaf_node <$> ls)) with (leaf_node <$> l :: ls).
  rewrite <- list_fmap_compose.
  rewrite (concat_indented _ leaf_psegs "    ") by (intros x; apply writexml_leaf).
  cbn [render]. rewrite render_app. cbn [render].
  by rewrite ?sapp_assoc, ?sapp_nil_r.
Qed.

Lemma toprettyxml_root (d : list (list (string * string))) :
  minidom.toprettyxml "  " (root_node d)
  = render (document_psegs d) +:+ minidom.newl.
Proof.
  unfold minidom.toprettyxml, document_psegs, root_node, root_psegs.
  rewrite writexml_unfold.
  destruct d as [|ls d]; [done|].
  change (item_node <$> ls :: d) with (item_node ls :: (item_node <$> d)).
  unfold item_node at 1. cbv match.
  fold (item_node ls). change (item_node ls :: (item_node <$> d)) with (item_node <$> ls :: d).
  rewrite <- list_fmap_compose.
  rewrite (concat_indented _ item_psegs "  ") by (intros x; apply writexml_item).
  cbn [render]. rewrite render_app. cbn [render].
  by rewrite ?sapp_assoc, ?sapp_nil_r.
Qed.

Lemma is_empty_write_data (t : string) :
  Str.is_empty (minidom.write_data t) = Str.is_empty t.
Proof.
  destruct t as [|c t]; [done|]. rewrite write_data_cons.
  destruct (Ascii.eqb_spec c "&") as [->|H1]; [done|].
  destruct (Ascii.eqb_spec c "<") as [->|H2]; [done|].
  destruct (Ascii.eqb_spec c Char.QUOT) as [->|H3]; [done|].
  destruct (Ascii.eqb_spec c ">") as [->|H4]; [done|].
  apply Ascii.eqb_neq in H1, H2, H3, H4. cbn. rewrite H1. cbn. rewrite H2. cbn.
  rewrite H3. cbn. by rewrite H4.
Qed.

Lemma splits_pretty_leaf (l : string * string) (sgs : list seg) :
  valid_leaf l = true → Splits sgs →
  Splits (SText indent2 :: leaf_psegs l ++ sgs).
Proof.
  intros Hn%valid_leaf_name Hs. unfold leaf_psegs.
  destruct (Str.is_empty l.2) eqn:He.
  - apply splits_cons_text_tag; [done|done| |done].
    apply no_gt_snoc; [by apply is_name_no_gt|done].
  - apply splits_cons_text_tag; [done|done|by apply is_name_no_gt|].
    apply splits_cons_text_tag; [|apply no_lt_write_data|by apply no_gt_close|done].
    by rewrite is_empty_write_data.
Qed.

Lemma splits_pretty_leaves (ls : list (string * string)) (sgs : list seg) :
  forallb valid_leaf ls = true → Splits sgs →
  Splits (flat_map (λ l, SText indent2 :: leaf_psegs l) ls ++ sgs).
Proof.
  intros H Hs. induction ls as [|l ls IH]; [done|].
  cbn in H. apply andb_true_iff in H as [Hl Hls].
  cbn [flat_map]. rewrite <- !(assoc_L (++)). cbn [app].
  apply splits_pretty_leaf; auto.
Qed.

Lemma splits_pretty_item (ls : list (string * string)) (sgs : list seg) :
  forallb valid_leaf ls = true → Splits sgs →
  Splits (SText indent1 :: item_psegs ls ++ sgs).
Proof.
  intros H Hs. unfold item_psegs. destruct ls as [|l ls].
  - by apply splits_cons_text_tag.
  - cbn [app]. apply splits_cons_text_tag; [done..|].
    rewrite <- (assoc_L (++)). apply splits_pretty_leaves; [done|].
    by apply splits_cons_text_tag.
Qed.

Lemma splits_pretty_items (d : list (list (string * string))) (sgs : list seg) :
  valid_leaves d = true → Splits sgs →
  Splits (flat_map (λ ls, SText indent1 :: item_psegs ls) d ++ sgs).
Proof.
  intros H Hs. induction d as [|ls d IH]; [done|].
  cbn in H. apply andb_true_iff in H as [Hl Hls].
  cbn [flat_map]. rewrite <- !(assoc_L (++)). cbn [app].
  apply splits_pretty_item; auto.
Qed.

Lemma splits_document (d : list (list (string * string))) :
  valid_leaves d = true → Splits (document_psegs d).
Proof.
  intros H. unfold document_psegs, root_psegs.
  apply splits_cons_tag; [done|]. destruct d as [|ls d].
  - by apply splits_text_tag.
  - apply splits_cons_text_tag; [done..|].
    apply splits_pretty_items; [done|]. by apply splits_text_tag.
Qed.

Lemma tokens_list_app (a b : list node) :
  tokens_list (a ++ b) = tokens_list a ++ tokens_list b.
Proof. unfold tokens_list. apply flat_map_app. Qed.

Lemma tokens_list_flat_map {A} (f : A → list node) (l : list A) :
  tokens_list (flat_map f l) = flat_map (λ x, tokens_list (f x)) l.
Proof.
  induction l as [|x l IH]; [done|]. cbn. by rewrite tokens_list_app, IH.
Qed.

Lemma settled_leaf_valid (l : string * string) :
  settled_leaf l = true → valid_leaf l = true.
Proof. by intros [? _]%andb_true_iff. Qed.

Lemma settled_leaves_valid (d : list (list (string * string))) :
  settled_leaves d = true → valid_leaves d = true.
Proof.
  unfold settled_leaves, valid_leaves. rewrite !forallb_forall.
  intros H ls Hls. specialize (H ls Hls). rewrite forallb_forall in H |- *.
  intros l Hl. by apply settled_leaf_valid, H.
Qed.

Lemma tokens_of_pretty_leaf (l : string * string) :
  settled_leaf l = true →
  tokens_of (SText indent2 :: leaf_psegs l)
  = inr (tokens_list [NText indent2; leaf_node l]).
Proof.
  intros [H Hcr]%andb_true_iff. pose proof (valid_leaf_name l H) as Hn.
  pose proof (valid_leaf_chars l H) as Hc.
  apply (tokens_of_app [_] _ [_]); [done|].
  unfold leaf_psegs, leaf_node, tokens_list. cbn [flat_map].
  rewrite (right_id_L [] (++)).
  destruct (Str.is_empty l.2) eqn:He; cbn [tokens_of token_of].
  - by rewrite classify_empty.
  - rewrite classify_open, decode_text_write_data, classify_close by done.
    by rewrite normalize_newlines_id.
Qed.

Lemma tokens_of_pretty_item (ls : list (string * string)) :
  forallb settled_leaf ls = true →
  tokens_of (SText indent1 :: item_psegs ls)
  = inr (tokens_list [NText indent1; pretty_item ls]).
Proof.
  intros H. apply (tokens_of_app [_] _ [_]); [done|].
  unfold tokens_list. cbn [flat_map]. rewrite (right_id_L [] (++)).
  unfold item_psegs, pretty_item. destruct ls as [|l ls]; [done|].
  rewrite tokens_elem_nonempty by (by destruct (leaf_psegs l)).
  rewrite tokens_list_app, tokens_list_flat_map, <- (assoc_L (++)).
  apply (tokens_of_app [_] _ [_]); [done|].
  apply tokens_of_app; [|done].
  apply tokens_of_flat_map, Forall_forall. intros x Hx.
  apply tokens_of_pretty_leaf. by apply (forallb_elem _ _ _ H).
Qed.

Lemma tokens_of_document (d : list (list (string * string))) :
  settled_leaves d = true →
  tokens_of (document_psegs d ++ [SText minidom.newl])
  = inr (TDecl :: TText minidom.newl :: tokens (pretty_root d) ++ [TText minidom.newl]).
Proof.
  intros H. unfold document_psegs.
  apply (tokens_of_app [_; _] _ [_; _]); [done|].
  apply tokens_of_app; [|done].
  unfold root_psegs, pretty_root. destruct d as [|ls d]; [done|].
  rewrite tokens_elem_nonempty by done.
  rewrite tokens_list_app, tokens_list_flat_map, <- (assoc_L (++)).
  apply (tokens_of_app [_] _ [_]); [done|].
  apply tokens_of_app; [|done].
  apply tokens_of_flat_map, Forall_forall. intros x Hx.
  apply tokens_of_pretty_item. by apply (forallb_elem _ _ _ H).
Qed.

(** The second parse: of the pretty-printed text of a settled document. *)
Lemma parse_toprettyxml (d : list (list (string * string))) :
  settled_leaves d = true →
  Xml.parse (minidom.toprettyxml "  " (root_node d)) = inr (pretty_root d).
Proof.
  intros H. unfold Xml.parse, lex.
  rewrite toprettyxml_root.
  rewrite (splits_document d (settled_leaves_valid d H) minidom.newl
             [SText minidom.newl] eq_refl).
  rewrite tokens_of_document by done.
  cbn [build]. change (is_blank minidom.newl) with true. cbv match.
  unfold pretty_root. rewrite build_document_element. done.
Qed.

End PrettyText.

(** ** Tables and the tree built from them *)

Section Tables.

Lemma getitem_elem (row : Series) (k : string) (v : value) :
  NoDup row.*1 → (k, v) ∈ row → Series_getitem row k = Some v.
Proof.
  induction row as [|[k' v'] row IH]; [by intros _ ?%elem_of_nil|].
  cbn. intros [Hk' Hnd]%NoDup_cons [[= -> ->]|Hin]%elem_of_cons.
  - by rewrite decide_True.
  - rewrite decide_False; [by apply IH|].
    intros ->. apply Hk'. apply list_elem_of_fmap. by exists (k, v).
Qed.

Lemma getitem_is_Some (row : Series) (k : string) :
  k ∈ row.*1 → is_Some (Series_getitem row k).
Proof.
  induction row as [|[k' v'] row IH]; [by intros ?%elem_of_nil|].
  cbn. intros [->|Hin]%elem_of_cons.
  - rewrite decide_True by done. eauto.
  - destruct (decide (k' = k)); eauto.
Qed.

Lemma mapM_Forall2 {A B} (f : A → M B) (l : list A) (l' : list B) (log : list diag) :
  Forall2 (λ a b, ∀ log, f a log = (log, inr b)) l l' →
  mapM f l log = (log, inr l').
Proof.
  induction 1 as [|a b l l' Hab _ IH]; [done|].
  cbn. unfold bind. by rewrite Hab, IH.
Qed.

Lemma rows_wf (df : DataFrame) (r : list value) :
  wf df → r ∈ rows df → length r = length (columns df).
Proof. unfold wf. rewrite Forall_forall. auto. Qed.

Lemma wf_cleaned (df : DataFrame) : wf df → wf (cleaned df).
Proof.
  unfold wf, cleaned, applymap. cbn. rewrite !Forall_forall.
  intros H r [r' [-> Hr']]%list_elem_of_fmap.
  rewrite !length_fmap. by apply H.
Qed.

Lemma build_leaf_some (i : nat) (row : Series) (c : string) (v : value)
    (log : list diag) :
  Series_getitem row c = Some v →
  build_leaf i row c log = (log, inr (leaf_element (c, html_escape (py_str v)))).
Proof. intros H. unfold build_leaf. by rewrite H. Qed.

(** The leaves of one row, when the labels are distinct. *)
Lemma build_item_row (df : DataFrame) (i : nat) (cols : list string)
    (r : list value) (log : list diag) :
  columns df = cols → NoDup cols → length r = length cols →
  build_item df i (zip cols r) log
  = (log, inr (item_element (zip cols ((λ v, html_escape (py_str v)) <$> r)))).
Proof.
  intros Hcols Hnd Hlen. unfold build_item, bind. rewrite Hcols.
  rewrite (mapM_Forall2 _ _
             (leaf_element <$> zip cols ((λ v, html_escape (py_str v)) <$> r))).
  { done. }
  apply Forall2_same_length_lookup_2.
  { rewrite length_fmap, length_zip, length_fmap. lia. }
  intros j c e Hc He log'.
  rewrite list_lookup_fmap in He.
  destruct (zip cols _ !! j) as [[c' t]|] eqn:Hz; [|done].
  apply lookup_zip_with_Some in Hz as (c'' & t' & [= <- <-] & Hc' & Ht).
  rewrite Hc in Hc'. injection Hc' as <-.
  rewrite list_lookup_fmap in Ht.
  destruct (r !! j) as [v|] eqn:Hv; [|done]. injection Ht as <-.
  injection He as <-. apply build_leaf_some, getitem_elem.
  - rewrite fst_zip by lia. done.
  - apply list_elem_of_lookup. exists j. apply lookup_zip_with_Some. eauto.
Qed.

(** The tree of a table whose sanitized labels are distinct. *)
Lemma build_root_table (df : DataFrame) (log : list diag) :
  wf df → NoDup (clean_column_name <$> columns df) →
  build_root (cleaned df) log = (log, inr (root_element (table_leaves df))).
Proof.
  intros Hwf Hnd. unfold build_root, bind.
  rewrite (mapM_Forall2 _ _ (item_element <$> table_leaves df)); [done|].
  unfold iterrows, cleaned, applymap, table_leaves. cbn [columns rows].
  apply Forall2_same_length_lookup_2.
  { by rewrite length_imap, !length_fmap. }
  intros i [i' row] e Hrow He log'. cbn [fst snd].
  apply list_lookup_imap_Some in Hrow as (r' & Hr' & [= -> ->]).
  rewrite !list_lookup_fmap in He.
  rewrite list_lookup_fmap in Hr'.
  destruct (rows df !! i) as [r|] eqn:Hr; [|done].
  injection Hr' as <-. injection He as <-.
  rewrite (build_item_row _ _ (clean_column_name <$> columns df)); [|done|done|].
  - do 3 f_equal. by rewrite <- list_fmap_compose.
  - rewrite !length_fmap. apply rows_wf; [done|].
    apply list_elem_of_lookup. eauto.
Qed.

End Tables.

(** ** What the verifier reads in the parsed document *)

Section Recovery.

Import Xml.

Lemma of_node_elem (tg : string) (kids : list node) (tl : option string) :
  ET.of_node (NElem tg kids) tl
  = mkElement tg (ET.leading_text kids) (element_children kids) tl.
Proof.
  assert (H : ∀ l, (fix go (ks : list node) : list Element :=
                      match ks with
                      | [] => []
                      | NText _ :: ks' => go ks'
                      | (NElem _ _ as e) :: ks' =>
                          ET.of_node e (ET.leading_text ks') :: go ks'
                      end) l = element_children l).
  { induction l as [|[t k|d] l IH]; [done|..]; cbn [element_children]; by rewrite IH. }
  cbn [ET.of_node]. by rewrite H.
Qed.

Lemma xml_row_of_leaves (e : Element) :
  xml_row_of e
  = foldl (λ xml_row (p : string * option string), <[p.1 := p.2]> xml_row) ∅
      (leaves_of e).
Proof.
  unfold xml_row_of, leaves_of. generalize (∅ : gmap string (option string)).
  induction (children e) as [|c cs IH]; intros m; [done|]. cbn. apply IH.
Qed.

Lemma leaf_node_read (l : string * string) (tl : option string) :
  (λ c, (tag c, text c)) (ET.of_node (leaf_node l) tl) = (l.1, recovered_text l.2).
Proof.
  unfold leaf_node, recovered_text. rewrite of_node_elem. cbn.
  by destruct (Str.is_empty l.2).
Qed.

Lemma leaves_interleaved (ls : list (string * string)) (rest : list node) :
  (λ c, (tag c, text c)) <$>
    element_children (flat_map (λ l, [NText indent2; leaf_node l]) ls ++ rest)
  = ((λ l : string * string, (l.1, recovered_text l.2)) <$> ls)
    ++ ((λ c, (tag c, text c)) <$> element_children rest).
Proof.
  induction ls as [|l ls IH]; [done|].
  cbn [flat_map app element_children fmap list_fmap].
  unfold leaf_node at 1. cbn [element_children]. fold (leaf_node l).
  rewrite fmap_cons, leaf_node_read. cbn [app]. f_equal. apply IH.
Qed.

Lemma leaves_of_pretty_item (ls : list (string * string)) (tl : option string) :
  leaves_of (ET.of_node (pretty_item ls) tl)
  = (λ l : string * string, (l.1, recovered_text l.2)) <$> ls.
Proof.
  unfold leaves_of, pretty_item. rewrite of_node_elem. cbn [children].
  destruct ls as [|l ls]; [done|].
  rewrite leaves_interleaved. cbn. by rewrite (right_id_L [] (++)).
Qed.

Lemma xml_row_of_pretty_item (ls : list (string * string)) (tl : option string) :
  xml_row_of (ET.of_node (pretty_item ls) tl) = recovered_row ls.
Proof. by rewrite xml_row_of_leaves, leaves_of_pretty_item. Qed.

Lemma items_interleaved (d : list (list (string * string))) (rest : list node) :
  Forall (λ e, tag e = "Item") (element_children rest) →
  xml_row_of <$>
    filter (λ c, tag c = "Item")
      (element_children (flat_map (λ ls, [NText indent1; pretty_item ls]) d ++ rest))
  = (recovered_row <$> d)
    ++ (xml_row_of <$> element_children rest).
Proof.
  intros Hrest. induction d as [|ls d IH].
  - cbn [flat_map app fmap list_fmap]. f_equal.
    induction Hrest as [|e es He _ IHes]; [done|].
    rewrite filter_cons_True by done. by rewrite IHes.
  - cbn [flat_map app element_children fmap list_fmap].
    unfold pretty_item at 1. cbn [element_children]. fold (pretty_item ls).
    rewrite filter_cons_True by (unfold pretty_item; by rewrite of_node_elem).
    rewrite fmap_cons, xml_row_of_pretty_item. cbn [app]. f_equal. apply IH.
Qed.

(** The rows the verifier collects from the parsed pretty document. *)
Lemma xml_data_pretty_root (d : list (list (string * string))) :
  xml_row_of <$> ET.findall "Item" (ET.of_node (pretty_root d) None)
  = recovered_row <$> d.
Proof.
  unfold ET.findall, pretty_root. rewrite of_node_elem. cbn [children].
  destruct d as [|ls d]; [done|].
  rewrite items_interleaved by (cbn; constructor).
  cbn. by rewrite (right_id_L [] (++)).
Qed.

(** With distinct tags, the text stored under a tag is the text of the
    leaf that has the tag. *)
Lemma dict_get_foldl (ps : list (string * option string))
    (m : gmap string (option string)) (k : string) (t : option string) :
  NoDup ps.*1 → (k, t) ∈ ps →
  dict_get (foldl (λ xml_row (p : string * option string),
                     <[p.1 := p.2]> xml_row) m ps) k = t.
Proof.
  revert m. induction ps as [|[k' t'] ps IH]; intros m; [by intros _ ?%elem_of_nil|].
  cbn. intros [Hk' Hnd]%NoDup_cons [[= -> ->]|Hin]%elem_of_cons.
  - clear IH. revert m. induction ps as [|[k'' t''] ps IH]; intros m.
    + cbn. unfold dict_get. by rewrite lookup_insert_eq.
    + cbn. cbn in Hk'. apply not_elem_of_cons in Hk' as [Hne Hk'].
      apply NoDup_cons in Hnd as [_ Hnd].
      rewrite insert_insert_ne by done. by apply IH.
  - by apply IH.
Qed.

Lemma dict_get_recovered_row (ls : list (string * string)) (k t : string) :
  NoDup ls.*1 → (k, t) ∈ ls →
  dict_get (recovered_row ls) k = recovered_text t.
Proof.
  intros Hnd Hin. unfold recovered_row. apply dict_get_foldl.
  - by rewrite <- list_fmap_compose.
  - apply list_elem_of_fmap. by exists (k, t).
Qed.

End Recovery.

(** ** The comparison loops are one scan in row-major order *)

Section Scan.

Context (xml_data : list (gmap string (option string))).

Lemma scan_cells_app (a b : list cell) (k : exn + (bool * string)) :
  scan_cells xml_data (a ++ b) k = scan_cells xml_data a (scan_cells xml_data b k).
Proof.
  induction a as [|c a IH]; [done|]. cbn.
  destruct (recovered xml_data c) as [got|]; [|done].
  by case_bool_decide.
Qed.

Lemma compare_columns_scan (i : nat) (row : Series) (cs : list (string * value))
    (k : exn + (bool * string)) :
  (∀ kv, kv ∈ cs → Series_getitem row kv.1 = Some kv.2) →
  match compare_columns xml_data i row cs.*1 with
  | inl e => inl e
  | inr (Some r) => inr r
  | inr None => k
  end
  = scan_cells xml_data ((λ kv, (i, kv.1, kv.2)) <$> cs) k.
Proof.
  induction cs as [|[key v] cs IH]; intros H; [done|].
  cbn [fmap list_fmap compare_columns scan_cells fst snd].
  pose proof (H (key, v) ltac:(left)) as Hget. cbn [fst snd] in Hget.
  rewrite Hget. unfold recovered. cbn [fst snd].
  destruct (xml_data !! i) as [xml_row|] eqn:Hrow; [|done]. cbn.
  case_bool_decide; [done|].
  rewrite <- IH; [done|]. intros kv Hkv. apply H. by right.
Qed.

Lemma compare_rows_scan (df : DataFrame) (its : list (nat * Series)) :
  NoDup (columns df) →
  (∀ ir, ir ∈ its → ir.2.*1 = columns df) →
  compare_rows df xml_data its
  = scan_cells xml_data
      (flat_map (λ ir : nat * Series, (λ kv, (ir.1, kv.1, kv.2)) <$> ir.2) its)
      (inr success).
Proof.
  intros Hnd. induction its as [|[i row] its IH]; intros H; [done|].
  cbn [compare_rows flat_map fst snd]. rewrite scan_cells_app.
  assert (Hrow : row.*1 = columns df) by (apply (H (i, row)); left).
  rewrite <- IH by (intros ir Hir; apply H; by right).
  rewrite <- (compare_columns_scan i row row).
  - rewrite Hrow. by destruct (compare_columns _ _ _ _) as [e|[r|]].
  - intros [key v] Hkv. apply getitem_elem; [by rewrite Hrow|done].
Qed.

Lemma iterrows_labels (df : DataFrame) (ir : nat * Series) :
  wf df → ir ∈ iterrows df → ir.2.*1 = columns df.
Proof.
  intros Hwf [j Hj]%list_elem_of_lookup.
  apply list_lookup_imap_Some in Hj as (r & Hr & ->). cbn.
  apply fst_zip. rewrite (rows_wf df r Hwf); [done|].
  apply list_elem_of_lookup. eauto.
Qed.

(** The nested loops of the verifier visit the cells in row-major order
    and stop at the first difference. *)
Lemma compare_rows_cells (df : DataFrame) :
  wf df → NoDup (columns df) →
  compare_rows df xml_data (iterrows df)
  = scan_cells xml_data (cells df) (inr success).
Proof.
  intros Hwf Hnd. apply compare_rows_scan; [done|].
  intros ir Hir. by apply iterrows_labels.
Qed.

Lemma scan_all_agree (cs : list cell) (k : exn + (bool * string)) :
  Forall (agrees xml_data) cs → scan_cells xml_data cs k = k.
Proof.
  induction 1 as [|c cs Hc _ IH]; [done|]. cbn.
  unfold agrees in Hc. rewrite Hc. by rewrite bool_decide_false by naive_solver.
Qed.

Lemma scan_first_differs (pre post : list cell) (c : cell)
    (got : option string) (k : exn + (bool * string)) :
  Forall (agrees xml_data) pre →
  recovered xml_data c = Some got → got ≠ Some (py_str c.2) →
  scan_cells xml_data (pre ++ c :: post) k = inr (report_of c got).
Proof.
  intros Hpre Hc Hne. rewrite scan_cells_app, scan_all_agree by done.
  cbn. rewrite Hc. by rewrite bool_decide_true by naive_solver.
Qed.

Lemma scan_some_differs (cs : list cell) (k : exn + (bool * string)) :
  Forall (λ c, is_Some (recovered xml_data c)) cs →
  Exists (differs xml_data) cs →
  ∃ msg, scan_cells xml_data cs k = inr (false, msg).
Proof.
  induction 1 as [|c cs [got Hc] _ IH]; [by intros ?%Exists_nil|].
  intros Hex. cbn. rewrite Hc. case_bool_decide as Hd; [by eexists|].
  apply Exists_cons in Hex as [(got' & Hc' & Hne)|Hex]; [|by apply IH].
  exfalso. rewrite Hc in Hc'. injection Hc' as <-. apply Hne.
  destruct (decide (Some (py_str c.2) = got)) as [<-|]; [done|]. by destruct Hd.
Qed.

End Scan.

(** ** The conversion of a table that the pretty printer accepts *)

Section Pipeline.

Lemma forallb_fmap {A B} (f : B → bool) (g : A → B) (l : list A) :
  forallb f (g <$> l) = forallb (λ x, f (g x)) l.
Proof. induction l as [|x l IH]; [done|]. cbn. by rewrite IH. Qed.

Lemma forallb_mono {A} (f g : A → bool) (l : list A) :
  (∀ x, f x = true → g x = true) → forallb f l = true → forallb g l = true.
Proof.
  intros H. rewrite !forallb_forall. auto.
Qed.

Lemma parsed_leaf_settled (l : string * string) :
  valid_leaf l = true → settled_leaf (parsed_leaf l) = true.
Proof.
  intros [Hn Hc]%andb_true_iff. unfold settled_leaf, valid_leaf, parsed_leaf.
  cbn [fst snd]. rewrite Hn, normalize_newlines_xml_char by done.
  by rewrite normalize_newlines_no_cr.
Qed.

Lemma parsed_leaves_settled (d : list (list (string * string))) :
  valid_leaves d = true → settled_leaves (parsed_leaves d) = true.
Proof.
  unfold valid_leaves, settled_leaves, parsed_leaves.
  rewrite forallb_fmap. apply forallb_mono. intros ls H.
  rewrite forallb_fmap. revert H. apply forallb_mono, parsed_leaf_settled.
Qed.

Lemma convert_relabels (df : DataFrame) :
  (convert_df_to_pretty_xml df).1 = relabelled df.
Proof. done. Qed.

(** A serializable table is converted without any report. *)
Lemma convert_accepts (df : DataFrame) (log : list diag) :
  wf df → NoDup (clean_column_name <$> columns df) → serializable df = true →
  (convert_df_to_pretty_xml df).2 log = (log, inr (pretty_buffer df)).
Proof.
  intros Hwf Hnd Hser. unfold convert_df_to_pretty_xml. cbn [snd].
  unfold bind. fold (cleaned df). rewrite build_root_table by done.
  unfold minidom.parseString. by rewrite parse_tostring.
Qed.

Lemma parse_pretty_buffer (df : DataFrame) :
  serializable df = true →
  ET.parse (Buf.read (Buf.seek (pretty_buffer df) 0))
  = inr (ET.of_node (pretty_root (parsed_leaves (table_leaves df))) None).
Proof.
  intros Hser. unfold ET.parse, pretty_buffer, Buf.read, Buf.seek.
  cbn [getvalue position Str.drop].
  by rewrite parse_toprettyxml by by apply parsed_leaves_settled.
Qed.

Lemma relabelled_wf (df : DataFrame) : wf df → wf (relabelled df).
Proof.
  unfold wf, relabelled. cbn. intros H. eapply Forall_impl; [done|].
  intros r Hr. by rewrite length_fmap.
Qed.

(** The verifier on the buffer of a serializable table. *)
Lemma test_pretty_buffer (df : DataFrame) :
  wf df → NoDup (clean_column_name <$> columns df) → serializable df = true →
  test_conversion_accuracy (relabelled df) (pretty_buffer df)
  = scan_cells (recovered_row <$> parsed_leaves (table_leaves df))
      (cells (relabelled df)) (inr success).
Proof.
  intros Hwf Hnd Hser. unfold test_conversion_accuracy.
  rewrite parse_pretty_buffer by done. unfold compare_with_root.
  rewrite xml_data_pretty_root.
  apply compare_rows_cells; [by apply relabelled_wf|done].
Qed.

Lemma convert_then_test_scan (df : DataFrame) :
  wf df → NoDup (clean_column_name <$> columns df) → serializable df = true →
  convert_then_test df
  = ([], scan_cells (recovered_row <$> parsed_leaves (table_leaves df))
           (cells (relabelled df)) (inr success)).
Proof.
  intros Hwf Hnd Hser. unfold convert_then_test.
  destruct (convert_df_to_pretty_xml df) as [df' conv] eqn:Hconv.
  pose proof (convert_relabels df) as H1. pose proof (convert_accepts df [] Hwf Hnd Hser) as H2.
  rewrite Hconv in H1, H2. cbn in H1, H2. subst df'. rewrite H2.
  by rewrite test_pretty_buffer.
Qed.

(** Every cell of the table is found again, under its label, in the row
    of the same index. *)
Lemma recovered_cell (df : DataFrame) (c : cell) :
  wf df → NoDup (clean_column_name <$> columns df) →
  c ∈ cells (relabelled df) →
  recovered (recovered_row <$> parsed_leaves (table_leaves df)) c
  = Some (roundtrip c.2).
Proof.
  intros Hwf Hnd Hc. unfold cells in Hc.
  apply list_elem_of_In, in_flat_map in Hc as ([i row] & Hir & Hc).
  apply list_elem_of_In in Hir, Hc. cbn [fst snd] in Hc.
  apply list_elem_of_fmap in Hc as ([k v] & -> & Hkv). cbn [fst snd] in *.
  apply list_elem_of_lookup in Hir as [i' Hir].
  apply list_lookup_imap_Some in Hir as (r & Hr & [= -> ->]).
  cbn [relabelled columns rows] in *.
  assert (Hlen : length r = length (columns df)).
  { apply rows_wf; [done|]. apply list_elem_of_lookup. eauto. }
  unfold recovered, parsed_leaves, table_leaves. cbn [fst snd].
  rewrite !list_lookup_fmap, Hr. cbn [fmap option_fmap option_map].
  f_equal. apply list_elem_of_lookup in Hkv as [j Hj].
  apply lookup_zip_with_Some in Hj as (k' & v' & [= <- <-] & Hk & Hv).
  unfold roundtrip. apply dict_get_recovered_row.
  - rewrite <- list_fmap_compose.
    change (fst ∘ parsed_leaf) with (@fst string string).
    rewrite fst_zip; [done|]. rewrite !length_fmap. lia.
  - apply list_elem_of_fmap. exists (k, leaf_text v). split; [done|].
    apply list_elem_of_lookup. exists j. apply lookup_zip_with_Some.
    exists k, (leaf_text v). split; [done|]. split; [done|].
    by rewrite list_lookup_fmap, Hv.
Qed.

Lemma table_leaves_word (df : DataFrame) : word_leaves (table_leaves df) = true.
Proof.
  unfold word_leaves, table_leaves. apply forallb_forall.
  intros ls [r [-> _]]%list_elem_of_In%list_elem_of_fmap.
  apply forallb_forall. intros [c t] Hl%list_elem_of_In%elem_of_zip_l.
  apply list_elem_of_fmap in Hl as [c' [-> _]]. apply re_sub_nonword_word.
Qed.

(** A table that is not serializable is rejected by the pretty-printing
    step: the converter reports and raises. *)
Lemma convert_rejects (df : DataFrame) (log : list diag) :
  wf df → NoDup (clean_column_name <$> columns df) → serializable df = false →
  ∃ m log', (convert_df_to_pretty_xml df).2 log = (log', inl (ExpatError m)).
Proof.
  intros Hwf Hnd Hser. unfold convert_df_to_pretty_xml. cbn [snd].
  unfold bind at 1. fold (cleaned df). rewrite build_root_table by done.
  unfold minidom.parseString.
  destruct (parse_tostring_rejects (table_leaves df) (table_leaves_word df) Hser)
    as [m ->].
  by eexists _, _.
Qed.

(** The converter returns a buffer exactly for the serializable tables. *)
Lemma accepted_iff_serializable (df : DataFrame) (log : list diag) :
  wf df → NoDup (clean_column_name <$> columns df) →
  (∃ log' xml_file, (convert_df_to_pretty_xml df).2 log = (log', inr xml_file))
  ↔ serializable df = true.
Proof.
  intros Hwf Hnd. split.
  - intros (log' & xml_file & H). destruct (serializable df) eqn:Hser; [done|].
    destruct (convert_rejects df log Hwf Hnd Hser) as (m & log'' & H').
    by rewrite H in H'.
  - intros Hser. exists log, (pretty_buffer df). by apply convert_accepts.
Qed.

Lemma convert_then_test_rejects (df : DataFrame) :
  wf df → NoDup (clean_column_name <$> columns df) → serializable df = false →
  ∃ log e, convert_then_test df = (log, inl e).
Proof.
  intros Hwf Hnd Hser. unfold convert_then_test.
  destruct (convert_rejects df [] Hwf Hnd Hser) as (m & log' & H).
  destruct (convert_df_to_pretty_xml df) as [df' conv]. cbn [snd] in H.
  rewrite H. by eexists _, _.
Qed.

End Pipeline.

(** ** Cells that come back as they were, and cells that do not *)

Section Cells.

Lemma plain_parts (s : string) :
  plain s = true →
  Str.lacks "&" s = true ∧ Str.lacks "<" s = true ∧ Str.lacks ">" s = true
  ∧ Str.lacks Char.QUOT s = true ∧ Str.lacks Char.APOS s = true.
Proof.
  unfold plain. rewrite !andb_true_iff. tauto.
Qed.

Lemma html_escape_plain (s : string) : plain s = true → html_escape s = s.
Proof.
  intros (H1 & H2 & H3 & H4 & H5)%plain_parts. unfold html_escape. cbv zeta.
  rewrite (replace_absent "&") by done. rewrite (replace_absent "<") by done.
  rewrite (replace_absent ">") by done.
  rewrite (replace_absent Char.QUOT) by done.
  by rewrite (replace_absent Char.APOS).
Qed.

Lemma py_str_clean_data_plain (v : value) :
  plain (py_str v) = true → py_str (clean_data v) = py_str v.
Proof.
  destruct v as [s| | | |]; try done. cbn.
  intros (H1 & H2 & H3 & _)%plain_parts.
  rewrite (replace_absent "&") by done. rewrite (replace_absent "<") by done.
  by rewrite (replace_absent ">").
Qed.

Lemma leaf_text_plain (v : value) :
  plain (py_str v) = true → leaf_text v = py_str v.
Proof.
  intros H. unfold leaf_text. rewrite py_str_clean_data_plain by done.
  by apply html_escape_plain.
Qed.

(** A cell whose text is not empty and has neither a special character
    nor a carriage return comes back as it was. *)
Lemma roundtrip_plain (v : value) :
  plain (py_str v) = true → Str.is_empty (py_str v) = false →
  Str.lacks Char.CR (py_str v) = true →
  roundtrip v = Some (py_str v).
Proof.
  intros Hp Hne Hcr. unfold roundtrip, recovered_text.
  rewrite leaf_text_plain, normalize_newlines_id by done. by rewrite Hne.
Qed.


(** A text with an apostrophe does not come back: what comes back has
    none. *)
Lemma roundtrip_apostrophe (v : value) :
  Str.lacks Char.APOS (py_str v) = false → roundtrip v ≠ Some (py_str v).
Proof.
  intros H. unfold roundtrip, recovered_text.
  destruct (Str.is_empty _); [done|]. intros [= Heq].
  rewrite <- Heq, normalize_newlines_lacks in H; [done|done|].
  apply no_apos_html_escape.
Qed.

Lemma no_cr_leaf_text (v : value) :
  Str.lacks Char.CR (leaf_text v) = Str.lacks Char.CR (py_str v).
Proof.
  unfold leaf_text. rewrite no_cr_html_escape.
  destruct v as [s| | | |]; try done. apply no_cr_escape_cdata.
Qed.

Lemma length_leaf_text_amp (v : value) :
  Str.lacks "&" (py_str v) = false →
  String.length (py_str v) < String.length (leaf_text v).
Proof.
  intros H. unfold leaf_text. destruct v as [s| | | |];
    try (by apply length_html_escape_amp).
  change (py_str (VStr s)) with s in *.
  change (py_str (clean_data (VStr s))) with (escape_cdata s).
  pose proof (length_escape_cdata_amp s H).
  pose proof (length_html_escape (escape_cdata s)). lia.
Qed.

(** The cells that come back as they were are exactly the cells whose text
    is not empty and has neither a special character nor a carriage
    return. *)
Lemma roundtrip_iff (v : value) :
  roundtrip v = Some (py_str v)
  ↔ plain (py_str v) = true
    ∧ Str.is_empty (py_str v) = false
    ∧ Str.lacks Char.CR (py_str v) = true.
Proof.
  split; [|intros (? & ? & ?); by apply roundtrip_plain].
  unfold roundtrip, recovered_text.
  destruct (Str.is_empty (Xml.normalize_newlines false (leaf_text v))) eqn:He;
    [done|].
  intros [= H].
  assert (Hcr : Str.lacks Char.CR (py_str v) = true).
  { rewrite <- H. apply normalize_newlines_no_cr. }
  assert (Hid : leaf_text v = py_str v).
  { rewrite normalize_newlines_id in H; [done|].
    by rewrite no_cr_leaf_text. }
  split; [|split; [by rewrite <- H|done]].
  unfold plain. rewrite !andb_true_iff. repeat split.
  - destruct (Str.lacks "&" (py_str v)) eqn:Hamp; [done|].
    pose proof (length_leaf_text_amp v Hamp) as Hlen. rewrite Hid in Hlen. lia.
  - rewrite <- Hid. apply no_lt_html_escape.
  - rewrite <- Hid. apply no_gt_html_escape.
  - rewrite <- Hid. apply no_quot_html_escape.
  - rewrite <- Hid. apply no_apos_html_escape.
Qed.

Lemma cells_values (df : DataFrame) (c : cell) :
  c ∈ cells (relabelled df) → holds df c.2.
Proof.
  unfold cells. intros Hc.
  apply list_elem_of_In, in_flat_map in Hc as ([i row] & Hir & Hc).
  apply list_elem_of_In in Hir, Hc. cbn [fst snd] in Hc.
  apply list_elem_of_fmap in Hc as ([k v] & -> & Hkv). cbn [fst snd] in *.
  apply list_elem_of_lookup in Hir as [i' Hir].
  apply list_lookup_imap_Some in Hir as (r & Hr & [= -> ->]).
  apply list_elem_of_lookup in Hkv as [j Hj].
  apply lookup_zip_with_Some in Hj as (k' & v' & [= <- <-] & Hk & Hv).
  exists r. split; apply list_elem_of_lookup; eauto.
Qed.

Lemma cell_at (df : DataFrame) (i j : nat) (r : list value) (k : string) (v : value) :
  rows df !! i = Some r → r !! j = Some v → columns df !! j = Some k →
  (i, clean_column_name k, v) ∈ cells (relabelled df).
Proof.
  intros Hr Hv Hk. unfold cells.
  apply list_elem_of_In, in_flat_map.
  exists (i, zip (clean_column_name <$> columns df) r). split.
  - apply list_elem_of_In, list_elem_of_lookup. exists i.
    apply list_lookup_imap_Some. eauto.
  - apply list_elem_of_In. cbn [fst snd].
    apply list_elem_of_fmap. exists (clean_column_name k, v). split; [done|].
    apply list_elem_of_lookup. exists j. apply lookup_zip_with_Some.
    exists (clean_column_name k), v. rewrite list_lookup_fmap, Hk. done.
Qed.

Lemma holds_cell (df : DataFrame) (v : value) :
  wf df → holds df v → ∃ c, c ∈ cells (relabelled df) ∧ c.2 = v.
Proof.
  intros Hwf (r & Hr & Hv).
  pose proof (rows_wf df r Hwf Hr) as Hlen.
  apply list_elem_of_lookup in Hr as [i Hi].
  apply list_elem_of_lookup in Hv as [j Hj].
  destruct (lookup_lt_is_Some_2 (columns df) j) as [k Hk].
  { rewrite <- Hlen. by apply lookup_lt_Some in Hj. }
  exists (i, clean_column_name k, v). split; [|done]. by eapply cell_at.
Qed.

(** The verifier passes when every cell comes back as it was. *)
Lemma all_cells_return (df : DataFrame) :
  wf df → NoDup (clean_column_name <$> columns df) → serializable df = true →
  (∀ v, holds df v → roundtrip v = Some (py_str v)) →
  convert_then_test df = ([], inr success).
Proof.
  intros Hwf Hnd Hser Hall. rewrite convert_then_test_scan by done.
  rewrite scan_all_agree; [done|]. apply Forall_forall. intros c Hc.
  unfold agrees. rewrite recovered_cell by done.
  by rewrite Hall by by apply cells_values.
Qed.

(** The verifier reports a mismatch when some cell does not. *)
Lemma some_cell_differs (df : DataFrame) (v : value) :
  wf df → NoDup (clean_column_name <$> columns df) → serializable df = true →
  holds df v → roundtrip v ≠ Some (py_str v) →
  ∃ msg, convert_then_test df = ([], inr (false, msg)).
Proof.
  intros Hwf Hnd Hser Hv Hne. rewrite convert_then_test_scan by done.
  destruct (scan_some_differs
              (recovered_row <$> parsed_leaves (table_leaves df))
              (cells (relabelled df)) (inr success)) as [msg Hmsg].
  - apply Forall_forall. intros c Hc. rewrite recovered_cell by done. eauto.
  - destruct (holds_cell df v Hwf Hv) as (c & Hc & <-).
    apply Exists_exists. exists c. split; [done|].
    exists (roundtrip c.2). split; [by apply recovered_cell|done].
  - exists msg. by rewrite Hmsg.
Qed.

End Cells.

(** ** The shape of the document *)

Section Shape.

Import Xml.

Lemma mapM_exists {A B} (f : A → M B) (P : B → Prop) (l : list A) (log : list diag) :
  (∀ a, a ∈ l → ∃ b, P b ∧ ∀ log, f a log = (log, inr b)) →
  ∃ l', mapM f l log = (log, inr l') ∧ length l' = length l ∧ Forall P l'.
Proof.
  induction l as [|a l IH]; intros H.
  - exists []. by repeat split.
  - destruct (H a ltac:(left)) as (b & Hb & Hf).
    destruct IH as (l' & Hl' & Hlen & HP); [intros x Hx; apply H; by right|].
    exists (b :: l'). cbn. unfold bind. rewrite Hf, Hl'.
    split; [done|]. split; [by rewrite Hlen|]. by constructor.
Qed.

Lemma tag_leaf_elements (g : string → string) (l : list string) :
  tag <$> ((λ c, leaf_element (c, g c)) <$> l) = l.
Proof. induction l as [|c l IH]; [done|]. cbn. by rewrite IH. Qed.

Lemma build_item_shape (df : DataFrame) (i : nat) (r : list value) :
  length r = length (columns df) →
  ∃ leaves,
    tag <$> leaves = columns df
    ∧ ∀ log, build_item df i (zip (columns df) r) log
             = (log, inr (mkElement "Item" None leaves None)).
Proof.
  intros Hlen. set (row := zip (columns df) r).
  exists ((λ c, leaf_element
                  (c, html_escape (py_str (default VNaN (Series_getitem row c)))))
            <$> columns df).
  split.
  - apply (tag_leaf_elements (λ c, html_escape
              (py_str (default VNaN (Series_getitem row c))))).
  - intros log. unfold build_item, bind. erewrite mapM_Forall2; [done|].
    apply Forall2_fmap_r, Forall_Forall2_diag, Forall_forall. intros c Hc log'.
    destruct (getitem_is_Some row c) as [v Hv].
    { unfold row. rewrite fst_zip by lia. done. }
    rewrite Hv. by apply build_leaf_some.
Qed.

(** The tree of any table with one cell per column in every row. *)
Lemma build_root_shape (df : DataFrame) (log : list diag) :
  wf df →
  ∃ items,
    build_root (cleaned df) log = (log, inr (mkElement "Root" None items None))
    ∧ length items = length (rows df)
    ∧ Forall (λ item, tag item = "Item"
                      ∧ tag <$> children item = clean_column_name <$> columns df)
        items.
Proof.
  intros Hwf%wf_cleaned. unfold build_root, bind.
  destruct (mapM_exists (λ ir, build_item (cleaned df) ir.1 ir.2)
              (λ item, tag item = "Item"
                       ∧ tag <$> children item = columns (cleaned df))
              (iterrows (cleaned df)) log) as (items & Hitems & Hlen & HP).
  - intros [i row] [j Hj]%list_elem_of_lookup.
    apply list_lookup_imap_Some in Hj as (r & Hr & [= -> ->]). cbn [fst snd].
    assert (Hlen : length r = length (columns (cleaned df))).
    { apply rows_wf; [done|]. apply list_elem_of_lookup. eauto. }
    destruct (build_item_shape (cleaned df) j r Hlen) as (leaves & Htags & Hb).
    by exists (mkElement "Item" None leaves None).
  - exists items. rewrite Hitems. split; [done|]. split; [|done].
    rewrite Hlen. unfold iterrows. rewrite length_imap. unfold cleaned, applymap.
    cbn. by rewrite length_fmap.
Qed.

Lemma zip_fmap_r {A B C} (f : B → C) (a : list A) (b : list B) :
  (λ p : A * B, (p.1, f p.2)) <$> zip a b = zip a (f <$> b).
Proof.
  revert b. induction a as [|x a IH]; intros [|y b]; [done..|].
  cbn. by rewrite IH.
Qed.

Lemma tag_pretty_item (ls : list (string * string)) (tl : option string) :
  tag (ET.of_node (pretty_item ls) tl) = "Item".
Proof. unfold pretty_item. by rewrite of_node_elem. Qed.

Lemma rows_interleaved (d : list (list (string * string))) (rest : list node) :
  (λ e, (tag e, leaves_of e)) <$>
    element_children (flat_map (λ ls, [NText indent1; pretty_item ls]) d ++ rest)
  = ((λ ls : list (string * string),
        ("Item", (λ l : string * string, (l.1, recovered_text l.2)) <$> ls)) <$> d)
    ++ ((λ e, (tag e, leaves_of e)) <$> element_children rest).
Proof.
  induction d as [|ls d IH]; [done|].
  cbn [flat_map app element_children fmap list_fmap].
  unfold pretty_item at 1. cbn [element_children]. fold (pretty_item ls).
  rewrite fmap_cons, leaves_of_pretty_item, tag_pretty_item. cbn [app].
  by rewrite IH.
Qed.

Lemma children_pretty_root (d : list (list (string * string))) :
  (λ e, (tag e, leaves_of e)) <$> children (ET.of_node (pretty_root d) None)
  = (λ ls : list (string * string),
       ("Item", (λ l : string * string, (l.1, recovered_text l.2)) <$> ls)) <$> d.
Proof.
  unfold pretty_root. rewrite of_node_elem. cbn [children].
  destruct d as [|ls d]; [done|].
  rewrite rows_interleaved. cbn. by rewrite (right_id_L [] (++)).
Qed.

Lemma parsed_table_leaves (df : DataFrame) :
  (λ ls : list (string * string),
     ("Item", (λ l : string * string, (l.1, recovered_text l.2)) <$> ls))
    <$> parsed_leaves (table_leaves df)
  = (λ r, ("Item", zip (clean_column_name <$> columns df) (roundtrip <$> r)))
      <$> rows df.
Proof.
  unfold parsed_leaves, table_leaves. rewrite <- !list_fmap_compose.
  apply list_fmap_ext. intros i r _. cbn. f_equal.
  rewrite <- list_fmap_compose.
  rewrite <- (zip_fmap_r roundtrip), <- (zip_fmap_r leaf_text), <- list_fmap_compose.
  done.
Qed.

End Shape.

(** ** Further facts *)

Lemma recovered_in_range (df : DataFrame)
    (xml_data : list (gmap string (option string))) (c : cell) :
  length (rows df) ≤ length xml_data → c ∈ cells df →
  is_Some (recovered xml_data c).
Proof.
  intros Hlen Hc. unfold cells in Hc.
  apply list_elem_of_In, in_flat_map in Hc as ([i row] & Hir & Hc).
  apply list_elem_of_In in Hir, Hc. cbn [fst snd] in Hc.
  apply list_elem_of_fmap in Hc as ([k v] & -> & _).
  apply list_elem_of_lookup in Hir as [i' Hir].
  apply list_lookup_imap_Some in Hir as (r & Hr & [= -> ->]).
  unfold recovered. cbn [fst snd].
  destruct (lookup_lt_is_Some_2 xml_data i') as [xml_row ->]; [|by eexists].
  apply lookup_lt_Some in Hr. lia.
Qed.

Lemma take_drop (n : nat) (s : string) : Str.take n s +:+ Str.drop n s = s.
Proof.
  revert s. induction n as [|n IH]; intros [|c s]; [done..|]. cbn. by rewrite IH.
Qed.

Lemma length_take (n : nat) (s : string) :
  String.length (Str.take n s) = n `min` String.length s.
Proof.
  revert s. induction n as [|n IH]; intros [|c s]; [done..|]. cbn. by rewrite IH.
Qed.

Lemma fmap_fixed {A} (f : A → A) (l : list A) :
  f <$> l = l ↔ Forall (λ x, f x = x) l.
Proof.
  induction l as [|x l IH]; [by split; [constructor|]|]. cbn. split.
  - intros [= Hx Hl]. constructor; [done|]. by apply IH.
  - intros [Hx Hl]%Forall_cons. by rewrite Hx, (proj2 IH Hl).
Qed.

Example cells_row_major :
  cells (mkDataFrame ["a"; "b"] [[VInt 1; VInt 2]; [VInt 3; VInt 4]])
  = [(0, "a", VInt 1); (0, "b", VInt 2); (1, "a", VInt 3); (1, "b", VInt 4)].
Proof. reflexivity. Qed.

(** ** Sanitized names as tags *)

Section TagNames.

Lemma length_re_sub_nonword (b : bool) (s : string) :
  String.length (re_sub_nonword b s) ≤ String.length s.
Proof.
  revert b. induction s as [|c s IH]; intros b; [done|]. cbn.
  destruct (Char.is_word c); [cbn; specialize (IH false); lia|].
  destruct b; [specialize (IH true); lia|cbn; specialize (IH true); lia].
Qed.

Lemma ascii_word_name_char (c : ascii) :
  Char.is_ascii c = true → Char.is_word c = true → Char.is_name_char c = true.
Proof. destruct c as [[] [] [] [] [] [] [] []]; by vm_compute. Qed.

Lemma ascii_word_name_start (c : ascii) :
  Char.is_ascii c = true → Char.is_word c = true → Char.is_digit c = false →
  Char.is_name_start c = true.
Proof. destruct c as [[] [] [] [] [] [] [] []]; by vm_compute. Qed.

Lemma digit_not_name_start (c : ascii) :
  Char.is_digit c = true → Char.is_word c = true ∧ Char.is_name_start c = false.
Proof. destruct c as [[] [] [] [] [] [] [] []]; by vm_compute. Qed.

Lemma name_char_re_sub_nonword (b : bool) (s : string) :
  Str.forallb Char.is_ascii s = true →
  Str.forallb Char.is_name_char (re_sub_nonword b s) = true.
Proof.
  revert b. induction s as [|c s IH]; intros b; [done|]. cbn.
  intros [Hc Hs]%andb_true_iff.
  destruct (Char.is_word c) eqn:Hw.
  - cbn. by rewrite ascii_word_name_char, IH.
  - destruct b; [by apply IH|]. cbn. by apply IH.
Qed.

End TagNames.

(** ** Escaping once and twice *)

Section Escaping.

Import Xml.

Lemma decode_refs_escape_cdata (s : string) :
  decode_refs None (escape_cdata s) = Some s.
Proof.
  induction s as [|c s IH]; [done|].
  rewrite escape_cdata_cons.
  set (e := escape_cdata s) in *. clearbody e.
  split_char c; try (by cbn; rewrite ?IH).
  plain_char. by rewrite IH.
Qed.

Lemma length_escape_cdata_grows (x : ascii) (s : string) :
  x = "&"%char ∨ x = "<"%char ∨ x = ">"%char →
  Str.lacks x s = false → String.length s < String.length (escape_cdata s).
Proof.
  intros Hx.
  apply (length_pieces_grows escape_cdata x eq_refl escape_cdata_cons
           length_char_escape_cdata).
  destruct Hx as [->|[->| ->]]; cbn; lia.
Qed.

Lemma escape_cdata_fixed (s : string) :
  escape_cdata s = s
  ↔ Str.lacks "&" s && Str.lacks "<" s && Str.lacks ">" s = true.
Proof.
  split.
  - intros H. apply (f_equal String.length) in H.
    rewrite !andb_true_iff. repeat split.
    + destruct (Str.lacks "&" s) eqn:E; [done|].
      apply (length_escape_cdata_grows "&") in E; [lia|auto].
    + destruct (Str.lacks "<" s) eqn:E; [done|].
      apply (length_escape_cdata_grows "<") in E; [lia|auto].
    + destruct (Str.lacks ">" s) eqn:E; [done|].
      apply (length_escape_cdata_grows ">") in E; [lia|auto].
  - intros [[H1 H2]%andb_true_iff H3]%andb_true_iff. unfold escape_cdata.
    rewrite (replace_absent "&") by done. rewrite (replace_absent "<") by done.
    by rewrite (replace_absent ">").
Qed.

Lemma no_amp_escape_cdata (s : string) :
  Str.lacks "&" (escape_cdata s)
  = Str.lacks "&" s && Str.lacks "<" s && Str.lacks ">" s.
Proof.
  unfold Str.lacks.
  rewrite (forallb_pieces _ escape_cdata eq_refl escape_cdata_cons
             (λ c, negb (Ascii.eqb c "&") && negb (Ascii.eqb c "<")
                   && negb (Ascii.eqb c ">"))).
  - induction s as [|c s IH]; [done|]. cbn. rewrite IH.
    destruct (Ascii.eqb c "&"), (Ascii.eqb c "<"), (Ascii.eqb c ">"); cbn;
      rewrite ?andb_false_r; try done.
    all: by destruct (Str.forallb _ s), (Str.forallb _ s), (Str.forallb _ s).
  - intros c. split_char c; try done. by plain_char.
Qed.

Lemma xml_char_html_escape (s : string) :
  Str.forallb Char.is_xml_char (html_escape s) = Str.forallb Char.is_xml_char s.
Proof.
  apply (forallb_pieces _ html_escape eq_refl html_escape_cons).
  intros c. split_char c; try done. plain_char. apply andb_true_r.
Qed.

Lemma xml_char_leaf_text (v : value) :
  Str.forallb Char.is_xml_char (leaf_text v)
  = Str.forallb Char.is_xml_char (py_str v).
Proof.
  unfold leaf_text. rewrite xml_char_html_escape.
  destruct v as [s| | | |]; try done. apply xml_char_escape_cdata.
Qed.

End Escaping.

(** ** The pretty-printed text, line by line *)

Section FileText.

Import Xml.






End FileText.

(** ** The tables the converter accepts *)

Section Acceptance.

(** The serializable tables, in terms of the table itself. *)
Lemma serializable_iff (df : DataFrame) :
  wf df →
  serializable df = true
  ↔ rows df = []
    ∨ (Forall (λ c, Xml.is_name (clean_column_name c) = true) (columns df)
       ∧ ∀ v, holds df v → Str.forallb Char.is_xml_char (py_str v) = true).
Proof.
  intros Hwf. unfold serializable, valid_leaves, table_leaves. split.
  - intros H. destruct (rows df) as [|r0 rs] eqn:Hrows; [by left|]. right.
    assert (Hleaf : ∀ r j c v, r ∈ rows df → columns df !! j = Some c →
                      r !! j = Some v →
                      valid_leaf (clean_column_name c, leaf_text v) = true).
    { intros r j c v Hr Hc Hv. rewrite <- Hrows in H.
      eapply forallb_elem; [eapply forallb_elem; [exact H|]|].
      - apply list_elem_of_fmap. by exists r.
      - apply list_elem_of_lookup. exists j. apply lookup_zip_with_Some.
        exists (clean_column_name c), (leaf_text v).
        by rewrite !list_lookup_fmap, Hc, Hv. }
    split.
    + apply Forall_forall. intros c [j Hc]%list_elem_of_lookup.
      assert (Hr0 : r0 ∈ rows df) by (rewrite Hrows; left).
      destruct (lookup_lt_is_Some_2 r0 j) as [v Hv].
      { rewrite (rows_wf df r0 Hwf Hr0). by apply lookup_lt_Some in Hc. }
      by apply (valid_leaf_name _ (Hleaf r0 j c v Hr0 Hc Hv)).
    + intros v (r & Hr & [j Hv]%list_elem_of_lookup).
      destruct (lookup_lt_is_Some_2 (columns df) j) as [c Hc].
      { rewrite <- (rows_wf df r Hwf Hr). by apply lookup_lt_Some in Hv. }
      rewrite <- xml_char_leaf_text.
      by apply (valid_leaf_chars _ (Hleaf r j c v Hr Hc Hv)).
  - intros [->|[Hn Hc]]; [done|].
    apply forallb_forall. intros ls [r [-> Hr]]%list_elem_of_In%list_elem_of_fmap.
    apply forallb_forall. intros [c t] Hl%list_elem_of_In.
    pose proof (elem_of_zip_l _ _ _ _ Hl) as [c' [-> Hc']]%list_elem_of_fmap.
    pose proof (elem_of_zip_r _ _ _ _ Hl) as [v [-> Hv]]%list_elem_of_fmap.
    unfold valid_leaf. cbn [fst snd]. rewrite Forall_forall in Hn.
    rewrite (Hn c' Hc'), xml_char_leaf_text. apply Hc. by exists r.
Qed.



End Acceptance.

(** ** The verifier on any document *)

Section Verifier.

Context (xml_data : list (gmap string (option string))).

Lemma scan_success_inv (cs : list cell) (msg : string) :
  scan_cells xml_data cs (inr success) = inr (true, msg) →
  msg = "All data has been accurately converted!" ∧ Forall (agrees xml_data) cs.
Proof.
  induction cs as [|c cs IH]; cbn.
  - intros [= <-]. by split.
  - destruct (recovered xml_data c) as [got|] eqn:Hc; [|done].
    case_bool_decide as Hd; [done|]. intros [-> Hcs]%IH. split; [done|].
    constructor; [|done]. unfold agrees. rewrite Hc. f_equal.
    destruct (decide (Some (py_str c.2) = got)) as [<-|]; [done|]. by destruct Hd.
Qed.

Lemma scan_index_error (n : nat) (cs : list cell) (k : exn + (bool * string)) :
  length xml_data ≤ n →
  (∀ c, c ∈ cs → c.1.1 < n → agrees xml_data c) →
  Exists (λ c : cell, n ≤ c.1.1) cs →
  scan_cells xml_data cs k = inl IndexError.
Proof.
  intros Hn. induction cs as [|c cs IH]; [by intros _ ?%Exists_nil|].
  intros Hpre Hex. cbn.
  destruct (decide (c.1.1 < n)) as [Hlt|Hge].
  - pose proof (Hpre c ltac:(left) Hlt) as Hc. unfold agrees in Hc. rewrite Hc.
    rewrite bool_decide_false by naive_solver.
    apply IH; [intros c' Hc'; apply Hpre; by right|].
    apply Exists_cons in Hex as [?|?]; [lia|done].
  - unfold recovered. rewrite lookup_ge_None_2 by lia. done.
Qed.


End Verifier.

Section Lookups.

Lemma plain_cell_at (df : DataFrame) (i j : nat) (r : list value) (k : string) (v : value) :
  rows df !! i = Some r → r !! j = Some v → columns df !! j = Some k →
  (i, k, v) ∈ cells df.
Proof.
  intros Hr Hv Hk. unfold cells.
  apply list_elem_of_In, in_flat_map.
  exists (i, zip (columns df) r). split.
  - apply list_elem_of_In, list_elem_of_lookup. exists i.
    apply list_lookup_imap_Some. eauto.
  - apply list_elem_of_In. cbn [fst snd].
    apply list_elem_of_fmap. exists (k, v). split; [done|].
    apply list_elem_of_lookup. exists j. apply lookup_zip_with_Some. eauto.
Qed.

Lemma compare_columns_ext (xd1 xd2 : list (gmap string (option string)))
    (i : nat) (row : Series) (keys : list string) :
  xd1 !! i = xd2 !! i →
  compare_columns xd1 i row keys = compare_columns xd2 i row keys.
Proof.
  intros H. induction keys as [|key keys IH]; [done|]. cbn.
  destruct (Series_getitem row key) as [v|]; [|done]. rewrite H.
  destruct (xd2 !! i) as [xml_row|]; [|done]. by rewrite IH.
Qed.

Lemma compare_rows_ext (df : DataFrame) (xd1 xd2 : list (gmap string (option string)))
    (its : list (nat * Series)) :
  (∀ ir, ir ∈ its → xd1 !! ir.1 = xd2 !! ir.1) →
  compare_rows df xd1 its = compare_rows df xd2 its.
Proof.
  induction its as [|[i row] its IH]; [done|]. intros H. cbn.
  rewrite (compare_columns_ext xd1 xd2) by (apply (H (i, row)); left).
  rewrite IH by (intros ir Hir; apply H; by right). done.
Qed.

Lemma compare_rows_no_columns (df : DataFrame)
    (xml_data : list (gmap string (option string))) (its : list (nat * Series)) :
  columns df = [] → compare_rows df xml_data its = inr success.
Proof.
  intros H. induction its as [|[i row] its IH]; [done|]. cbn. by rewrite H.
Qed.

Lemma dict_get_snoc (cs : list Element) (c : Element) (key : string) :
  dict_get (xml_row_of (mkElement "" None (cs ++ [c]) None)) key
  = if decide (tag c = key) then text c
    else dict_get (xml_row_of (mkElement "" None cs None)) key.
Proof.
  unfold xml_row_of, dict_get. cbn [children]. rewrite foldl_app. cbn.
  destruct (decide (tag c = key)) as [<-|Hne].
  - by rewrite lookup_insert_eq.
  - by rewrite lookup_insert_ne.
Qed.


End Lookups.

(** ** The first cell that does not come back *)

Section FirstReport.


(** The report of the converter followed by the verifier is the report on
    the first cell, in row-major order, that does not come back. *)
Lemma first_cell_reported (df : DataFrame) (pre post : list cell) (c : cell) :
  wf df → NoDup (clean_column_name <$> columns df) → serializable df = true →
  cells (relabelled df) = pre ++ c :: post →
  Forall comes_back pre → ¬ comes_back c →
  convert_then_test df
  = ([], inr (false, mismatch_message (c.1.1 + 1) c.1.2 (py_str c.2) (roundtrip c.2))).
Proof.
  intros Hwf Hnd Hser Hcells Hpre Hc. rewrite convert_then_test_scan by done.
  rewrite Hcells.
  assert (Hin : ∀ c', c' ∈ pre ++ c :: post → c' ∈ cells (relabelled df)).
  { intros c' Hc'. by rewrite Hcells. }
  rewrite (scan_first_differs _ pre post c (roundtrip c.2)); [done|..].
  - apply Forall_forall. intros c' Hc'. unfold agrees.
    rewrite recovered_cell; [|done..|apply Hin, elem_of_app; by left].
    f_equal. rewrite Forall_forall in Hpre. by apply Hpre.
  - apply recovered_cell; [done..|]. apply Hin, elem_of_app. right. by left.
  - done.
Qed.


End FirstReport.

(** ** The file determines the cells *)

Section Injective.








End Injective.

(** * The claims *)

(** ** Ampersands *)




(** ** The caller's table *)

(** C2, as amended.  The conversion leaves the cell values of the caller's
    table as they were and replaces its column names by the sanitized names,
    in order; the table is unchanged exactly when every column name
    consists of word characters only. *)
Theorem conversion_relabels_table (df : DataFrame) :
  rows (convert_df_to_pretty_xml df).1 = rows df
  ∧ columns (convert_df_to_pretty_xml df).1 = clean_column_name <$> columns df
  ∧ ((convert_df_to_pretty_xml df).1 = df
     ↔ Forall (λ c, Str.forallb Char.is_word c = true) (columns df)).
Proof.
  split; [done|]. split; [done|]. destruct df as [cols rws]. cbn. split.
  - intros [= H]. apply fmap_fixed in H. eapply Forall_impl; [done|].
    intros c Hc. cbn in Hc. rewrite <- Hc. apply re_sub_nonword_word.
  - intros H. f_equal. apply fmap_fixed. eapply Forall_impl; [done|].
    intros c Hc. by apply re_sub_nonword_id.
Qed.

Lemma conversion_relabels_table_witness :
  (convert_df_to_pretty_xml (mkDataFrame ["unit_price"] [[VInt 5]])).1
  = mkDataFrame ["unit_price"] [[VInt 5]].
Proof.
  apply (proj2 (proj2 (proj2
           (conversion_relabels_table (mkDataFrame ["unit_price"] [[VInt 5]]))))).
  repeat constructor.
Defined.

(** C2 as stated fails: a column name with a blank is not the name the
    table has after the call. *)
Lemma conversion_renames_columns :
  columns (convert_df_to_pretty_xml (mkDataFrame ["unit price"] [[VInt 5]])).1
  = ["unit_price"]
  ∧ (convert_df_to_pretty_xml (mkDataFrame ["unit price"] [[VInt 5]])).1
    ≠ mkDataFrame ["unit price"] [[VInt 5]].
Proof. split; [reflexivity|discriminate]. Qed.

(** ** Sanitized column names *)

(** C3, as amended.  The sanitized name consists of alphanumeric characters
    and underscores only; a maximal run of characters that are neither
    alphanumeric nor the underscore becomes one underscore, the text on both
    sides being sanitized on its own; underscores of the raw name are word
    characters and are kept as they are, like every name made of word
    characters only. *)
Theorem clean_column_name_word_runs (name : string) :
  Str.forallb (λ c, Char.isalnum c || Ascii.eqb c "_") (clean_column_name name) = true
  ∧ (∀ pre run post,
       name = pre +:+ run +:+ post →
       run ≠ "" → nonword run = true →
       ends_with_word pre → starts_with_word post →
       clean_column_name name
       = clean_column_name pre +:+ "_" +:+ clean_column_name post)
  ∧ (Str.forallb Char.is_word name = true → clean_column_name name = name).
Proof.
  split; [|split].
  - unfold clean_column_name.
    eapply sforallb_impl; [|apply re_sub_nonword_word].
    intros c Hc. unfold Char.is_word in Hc.
    apply orb_true_iff in Hc as [->|Hc]; [done|].
    apply orb_true_iff. right.
    apply Nat.eqb_eq in Hc. apply Ascii.eqb_eq.
    rewrite <- (ascii_nat_embedding c). unfold Char.code in Hc. by rewrite Hc.
  - intros pre run post -> Hne Hrun Hpre Hpost. unfold clean_column_name.
    destruct pre as [|c pre].
    + cbn [String.append]. by apply re_sub_nonword_run.
    + rewrite re_sub_nonword_after_word by done.
      by rewrite re_sub_nonword_run.
  - apply re_sub_nonword_id.
Qed.

Lemma clean_column_name_word_runs_witness :
  clean_column_name "first & last__name" = "first_last__name".
Proof.
  exact (proj1 (proj2 (clean_column_name_word_runs "first & last__name"))
           "first" " & " "last__name" eq_refl ltac:(discriminate) eq_refl eq_refl eq_refl).
Defined.

(** C3 as stated fails: the run of a blank, an underscore and a blank is one
    run of non-alphanumeric characters, and the code writes three
    underscores for it where the claim has one. *)
Lemma clean_column_name_keeps_underscores :
  clean_column_name "a _ b" = "a___b"
  ∧ replace_nonalnum_runs false "a _ b" = "a_b"
  ∧ ¬ (∀ name, clean_column_name name = replace_nonalnum_runs false name).
Proof.
  split; [done|]. split; [done|].
  intros H. specialize (H "a _ b"). discriminate H.
Qed.

(** ** Tables that round-trip *)




(** A carriage return does not come back either: the parser reads it as a
    line feed. *)
Example carriage_return_cell_differs :
  convert_then_test (mkDataFrame ["a"] [[VStr (String Char.CR "")]])
  = ([], inr (false,
       "Mismatch found in record 1 for column 'a': '" +:+ String Char.CR "" +:+
       "' != '" +:+ String Char.LF "" +:+ "'")).
Proof. reflexivity. Qed.

(** ** The shape of the document *)

(** C5.  For every table with N rows and M columns the tree that the
    converter assembles has the root [Root] with exactly N children, each an
    [Item] with exactly M children whose tags are the sanitized column names
    in column order.  When the converter accepts the table, the document in
    the returned buffer is read back as that shape: the root [Root], and for
    the rows in their order an [Item] whose leaves carry, column by column,
    the sanitized name and the text of the cell. *)
Theorem document_shape (df : DataFrame) (log : list diag) :
  wf df →
  (∃ items,
     build_root (cleaned df) log = (log, inr (mkElement "Root" None items None))
     ∧ length items = length (rows df)
     ∧ Forall (λ item, tag item = "Item"
                       ∧ tag <$> children item = clean_column_name <$> columns df
                       ∧ length (children item) = length (columns df))
         items)
  ∧ (NoDup (clean_column_name <$> columns df) → serializable df = true →
     ∃ xml_file root,
       (convert_df_to_pretty_xml df).2 log = (log, inr xml_file)
       ∧ ET.parse (Buf.read xml_file) = inr root
       ∧ tag root = "Root"
       ∧ length (children root) = length (rows df)
       ∧ (λ item, (tag item, leaves_of item)) <$> children root
         = (λ r, ("Item", zip (clean_column_name <$> columns df) (roundtrip <$> r)))
             <$> rows df).
Proof.
  intros Hwf. split.
  - destruct (build_root_shape df log Hwf) as (items & Hroot & Hlen & Hitems).
    exists items. split; [done|]. split; [done|].
    eapply Forall_impl; [done|]. intros item [Htag Htags]. split; [done|].
    split; [done|]. by rewrite <- (length_fmap tag), Htags, length_fmap.
  - intros Hnd Hser. exists (pretty_buffer df).
    exists (ET.of_node (pretty_root (parsed_leaves (table_leaves df))) None).
    split; [by apply convert_accepts|].
    split; [by apply (parse_pretty_buffer df)|].
    assert (Hch : (λ item, (tag item, leaves_of item)) <$>
                    children (ET.of_node (pretty_root (parsed_leaves (table_leaves df))) None)
                  = (λ r, ("Item", zip (clean_column_name <$> columns df) (roundtrip <$> r)))
                      <$> rows df).
    { by rewrite children_pretty_root, parsed_table_leaves. }
    split; [unfold pretty_root; by rewrite of_node_elem|]. split; [|done].
    apply (f_equal length) in Hch. by rewrite !length_fmap in Hch.
Qed.

Lemma document_shape_witness :
  ∃ xml_file root,
    (convert_df_to_pretty_xml
       (mkDataFrame ["id"; "full name"] [[VInt 1; VStr "Ann"]; [VInt 2; VStr "Bob"]])).2 []
    = ([], inr xml_file)
    ∧ ET.parse (Buf.read xml_file) = inr root
    ∧ tag root = "Root"
    ∧ length (children root) = 2
    ∧ (λ item, (tag item, leaves_of item)) <$> children root
      = [("Item", [("id", Some "1"); ("full_name", Some "Ann")]);
         ("Item", [("id", Some "2"); ("full_name", Some "Bob")])].
Proof.
  refine (proj2 (document_shape
            (mkDataFrame ["id"; "full name"] [[VInt 1; VStr "Ann"]; [VInt 2; VStr "Bob"]])
            [] _) _ eq_refl).
  - repeat constructor.
  - apply NoDup_cons. split; [|apply NoDup_singleton].
    intros H%list_elem_of_singleton. discriminate H.
Defined.

(** ** Apostrophes *)

(** C6.  The program at the table the claim names, the one cell [O'Brien]
    under the column [name]: the cell has an apostrophe and none of & < >,
    and the verifier does not report success for it.  [html.escape] writes
    the apostrophe as a character reference before the serializer escapes
    the ampersand of that reference, so the text that comes back has the
    reference in place of the apostrophe, and the program's own check of
    the conversion fails on the file the program has written. *)
Lemma obrien_does_not_roundtrip :
  Str.lacks Char.APOS "O'Brien" = false
  ∧ Str.lacks "&" "O'Brien" && Str.lacks "<" "O'Brien" && Str.lacks ">" "O'Brien" = true
  ∧ convert_then_test (mkDataFrame ["name"] [[VStr "O'Brien"]])
    = ([], inr (false,
         "Mismatch found in record 1 for column 'name': 'O'Brien' != 'O&#x27;Brien'")).
Proof. repeat split; reflexivity. Qed.

(** ** The comparison policy *)

(** C7, as amended.  For every table (one cell per column in every row,
    distinct column names) and every XML buffer that parses and has at least
    as many [Item] elements under its root as the table has rows, the
    verifier goes through the cells in row-major order, rows in table order
    and within a row the columns in table order: it stops at the first cell
    whose recovered value is not the string form of the original value and
    reports it with the row number counted from one, the column name used
    for the lookup, the string form of the original value and the recovered
    value (None when absent); when every cell agrees it reports success. *)
Theorem first_mismatch_reported (df : DataFrame) (xml_file : BytesIO) (root : Element) :
  wf df → NoDup (columns df) →
  ET.parse (Buf.read (Buf.seek xml_file 0)) = inr root →
  length (rows df) ≤ length (ET.findall "Item" root) →
  (∀ pre c post,
     cells df = pre ++ c :: post →
     Forall (agrees (xml_row_of <$> ET.findall "Item" root)) pre →
     ¬ agrees (xml_row_of <$> ET.findall "Item" root) c →
     ∃ got,
       recovered (xml_row_of <$> ET.findall "Item" root) c = Some got
       ∧ test_conversion_accuracy df xml_file
         = inr (false, mismatch_message (c.1.1 + 1) c.1.2 (py_str c.2) got))
  ∧ (Forall (agrees (xml_row_of <$> ET.findall "Item" root)) (cells df) →
     test_conversion_accuracy df xml_file
     = inr (true, "All data has been accurately converted!")).
Proof.
  intros Hwf Hnd Hparse Hlen. unfold test_conversion_accuracy. rewrite Hparse.
  unfold compare_with_root. rewrite compare_rows_cells by done. split.
  - intros pre c post Hcells Hpre Hc.
    destruct (recovered_in_range df (xml_row_of <$> ET.findall "Item" root) c)
      as [got Hgot].
    { by rewrite length_fmap. }
    { rewrite Hcells. apply elem_of_app. right. by left. }
    exists got. split; [done|]. rewrite Hcells.
    apply scan_first_differs; [done..|]. intros ->. by apply Hc.
  - intros Hall. by apply scan_all_agree.
Qed.

Lemma first_mismatch_reported_witness :
  test_conversion_accuracy
    (mkDataFrame ["a"; "b"] [[VStr "x"; VStr "y"]])
    (mkBytesIO "<Root><Item><a>x</a><b>z</b></Item></Root>" 7)
  = inr (false, "Mismatch found in record 1 for column 'b': 'y' != 'z'").
Proof.
  destruct (proj1 (first_mismatch_reported
                     (mkDataFrame ["a"; "b"] [[VStr "x"; VStr "y"]])
                     (mkBytesIO "<Root><Item><a>x</a><b>z</b></Item></Root>" 7)
                     (mkElement "Root" None
                        [mkElement "Item" None
                           [mkElement "a" (Some "x") [] None;
                            mkElement "b" (Some "z") [] None] None] None)
                     ltac:(repeat constructor)
                     ltac:(apply NoDup_cons; split; [|apply NoDup_singleton];
                           intros H%list_elem_of_singleton; discriminate H)
                     eq_refl ltac:(vm_compute; constructor))
              [(0, "a", VStr "x")] (0, "b", VStr "y") [] eq_refl
              ltac:(repeat constructor) ltac:(discriminate))
    as (got & Hgot & Htest).
  injection Hgot as <-. exact Htest.
Defined.

(** C7 as stated fails: for a table with one row and a buffer whose root
    has no [Item], the first cell has no row to be compared with, and the
    verifier raises IndexError where the claim has a report or success. *)
Lemma missing_row_raises :
  ET.parse (Buf.read (Buf.seek (mkBytesIO "<Root />" 0) 0))
  = inr (mkElement "Root" None [] None)
  ∧ cells (mkDataFrame ["a"] [[VStr "x"]]) = [(0, "a", VStr "x")]
  ∧ test_conversion_accuracy (mkDataFrame ["a"] [[VStr "x"]]) (mkBytesIO "<Root />" 0)
    = inl IndexError.
Proof. repeat split; reflexivity. Qed.

(** ** Failure of the pretty-printing step *)

(** C8.  For every table whose assembled tree the pretty-printing step
    rejects, the converter reports the cause and then the first 500
    characters of the raw XML text, and raises the same exception again: no
    buffer is returned. *)
Theorem formatting_error_reported (df : DataFrame) (log log' : list diag)
    (root : Element) (e : exn) :
  build_root (cleaned df) log = (log', inr root) →
  minidom.parseString (ET.tostring root) = inl e →
  (convert_df_to_pretty_xml df).2 log
  = (log' ++ [st_error ("Error formatting XML: " +:+ exn_str e)]
          ++ [st_write "Problem detected with the following raw XML snippet:"]
          ++ [st_write (Str.take 500 (ET.tostring root))],
     inl e)
  ∧ Str.take 500 (ET.tostring root) +:+ Str.drop 500 (ET.tostring root)
    = ET.tostring root
  ∧ String.length (Str.take 500 (ET.tostring root))
    = 500 `min` String.length (ET.tostring root).
Proof.
  intros Hroot Hparse. split; [|split; [apply take_drop|apply length_take]].
  unfold convert_df_to_pretty_xml. cbn [snd]. fold (cleaned df).
  unfold bind at 1. rewrite Hroot, Hparse.
  unfold bind, report, raise. by rewrite <- !(assoc_L (++)).
Qed.

Lemma formatting_error_reported_witness :
  (convert_df_to_pretty_xml (mkDataFrame ["1st"] [[VInt 3]])).2 []
  = ([st_error "Error formatting XML: not well-formed (invalid token)";
      st_write "Problem detected with the following raw XML snippet:";
      st_write "<Root><Item><1st>3</1st></Item></Root>"],
     inl (ExpatError "not well-formed (invalid token)")).
Proof.
  exact (proj1 (formatting_error_reported (mkDataFrame ["1st"] [[VInt 3]]) [] []
                  (mkElement "Root" None
                     [mkElement "Item" None [mkElement "1st" (Some "3") [] None] None]
                     None)
                  (ExpatError "not well-formed (invalid token)") eq_refl eq_refl)).
Defined.

(** ** The empty table *)

(** C9.  For every table with no row and at least one column, the document
    the converter returns has a root without children, and the verifier
    reports success on it. *)
Theorem empty_table_verified (df : DataFrame) :
  rows df = [] → columns df ≠ [] →
  ∃ xml_file root,
    (convert_df_to_pretty_xml df).2 [] = ([], inr xml_file)
    ∧ ET.parse (Buf.read xml_file) = inr root
    ∧ tag root = "Root" ∧ children root = []
    ∧ ET.findall "Item" root = []
    ∧ test_conversion_accuracy (convert_df_to_pretty_xml df).1 xml_file
      = inr (true, "All data has been accurately converted!")
    ∧ convert_then_test df
      = ([], inr (true, "All data has been accurately converted!")).
Proof.
  destruct df as [cols rws]. cbn. intros -> _.
  eexists _, _. repeat split; reflexivity.
Qed.

Lemma empty_table_verified_witness :
  convert_then_test (mkDataFrame ["id"; "name"] [])
  = ([], inr (true, "All data has been accurately converted!")).
Proof.
  destruct (empty_table_verified (mkDataFrame ["id"; "name"] []) eq_refl
              ltac:(discriminate)) as (xml_file & root & _ & _ & _ & _ & _ & _ & H).
  exact H.
Defined.

(** ** Empty cells *)




(** * Further properties of the program *)

(** ** [clean_column_name] *)

(** X1.  Sanitizing is idempotent: a sanitized name is left as it is when
    it is sanitized again. *)
Theorem clean_column_name_idempotent (name : string) :
  clean_column_name (clean_column_name name) = clean_column_name name.
Proof. unfold clean_column_name. apply re_sub_nonword_id, re_sub_nonword_word. Qed.

(** X2.  The sanitized name is never longer than the raw name, and it is
    empty only for the empty raw name. *)
Theorem clean_column_name_length (name : string) :
  String.length (clean_column_name name) ≤ String.length name
  ∧ (clean_column_name name = "" ↔ name = "").
Proof.
  split; [apply length_re_sub_nonword|]. split; [|by intros ->].
  destruct name as [|c s]; [done|]. unfold clean_column_name. cbn.
  by destruct (Char.is_word c).
Qed.

(** X3.  The sanitized name is not always an XML name, although the
    function is there to make one: it is none for the empty raw name and for
    a raw name that begins with a digit.  It is one for every other raw name
    made of ASCII characters. *)
Theorem clean_column_name_as_tag (name : string) :
  (name = "" → Xml.is_name (clean_column_name name) = false)
  ∧ (∀ c rest, name = String c rest → Char.is_digit c = true →
       Xml.is_name (clean_column_name name) = false)
  ∧ (∀ c rest, name = String c rest → Char.is_digit c = false →
       Str.forallb Char.is_ascii name = true →
       Xml.is_name (clean_column_name name) = true).
Proof.
  split; [by intros ->|]. split.
  - intros c rest -> [Hw Hs]%digit_not_name_start.
    unfold clean_column_name. cbn. rewrite Hw. cbn. by rewrite Hs.
  - intros c rest -> Hd [Hc Hrest]%andb_true_iff.
    unfold clean_column_name. cbn. destruct (Char.is_word c) eqn:Hw; cbn.
    + by rewrite ascii_word_name_start, name_char_re_sub_nonword.
    + by apply name_char_re_sub_nonword.
Qed.

(** ** [clean_data] *)

(** X4.  On a string, [clean_data] is an XML escaping that can be undone:
    replacing the entity references of its result by their characters, as a
    parser does, gives the string back, and the result has no angle
    bracket. *)
Theorem clean_data_decodes (s : string) :
  Xml.decode_refs None (py_str (clean_data (VStr s))) = Some s
  ∧ Str.lacks "<" (py_str (clean_data (VStr s))) = true
  ∧ Str.lacks ">" (py_str (clean_data (VStr s))) = true.
Proof.
  change (py_str (clean_data (VStr s))) with (escape_cdata s).
  split; [apply decode_refs_escape_cdata|].
  split; [apply no_lt_escape_cdata|apply no_gt_escape_cdata].
Qed.

(** X5.  [clean_data] leaves a value as it is exactly when the value is not
    a string or is a string without ampersand and angle brackets; applying
    it twice gives the same as applying it once only for those values. *)
Theorem clean_data_twice (v : value) :
  (clean_data v = v
   ↔ match v with
     | VStr s => Str.lacks "&" s && Str.lacks "<" s && Str.lacks ">" s = true
     | _ => True
     end)
  ∧ (clean_data (clean_data v) = clean_data v ↔ clean_data v = v).
Proof.
  destruct v as [s| | | |]; try done.
  change (clean_data (VStr s)) with (VStr (escape_cdata s)).
  change (clean_data (VStr (escape_cdata s))) with (VStr (escape_cdata (escape_cdata s))).
  split.
  - rewrite <- escape_cdata_fixed. split; [by intros [= ->]|by intros ->].
  - split; [|intros [= H]; by rewrite !H].
    intros [= H]. f_equal. apply escape_cdata_fixed.
    apply escape_cdata_fixed in H.
    apply andb_true_iff in H as [[H _]%andb_true_iff _].
    by rewrite no_amp_escape_cdata in H.
Qed.

(** ** [convert_df_to_pretty_xml] *)



(** X7.  Converting the table again, with the column names the first call
    has left on it, gives the same result and leaves the table as the first
    call left it. *)
Theorem convert_twice (df : DataFrame) :
  convert_df_to_pretty_xml (convert_df_to_pretty_xml df).1
  = convert_df_to_pretty_xml df.
Proof.
  unfold convert_df_to_pretty_xml. cbn [fst columns rows].
  assert (H : clean_column_name <$> (clean_column_name <$> columns df)
              = clean_column_name <$> columns df).
  { rewrite <- list_fmap_compose. apply list_fmap_ext. intros i c _. cbn.
    unfold clean_column_name. apply re_sub_nonword_id, re_sub_nonword_word. }
  by rewrite H.
Qed.

(** X9.  The converter returns a buffer exactly when the table has no row,
    or every sanitized column name is an XML name and the string form of
    every cell consists of characters that XML allows (no control character
    other than tab, line feed and carriage return). *)
Theorem convert_accepts_iff (df : DataFrame) (log : list diag) :
  wf df → NoDup (clean_column_name <$> columns df) →
  (∃ log' xml_file, (convert_df_to_pretty_xml df).2 log = (log', inr xml_file))
  ↔ rows df = []
    ∨ (Forall (λ c, Xml.is_name (clean_column_name c) = true) (columns df)
       ∧ ∀ v, holds df v → Str.forallb Char.is_xml_char (py_str v) = true).
Proof.
  intros Hwf Hnd. rewrite accepted_iff_serializable by done.
  by apply serializable_iff.
Qed.

Lemma convert_accepts_iff_witness :
  ¬ ∃ log' xml_file,
      (convert_df_to_pretty_xml (mkDataFrame ["2024"] [[VInt 1]])).2 []
      = (log', inr xml_file).
Proof.
  intros H.
  apply (convert_accepts_iff (mkDataFrame ["2024"] [[VInt 1]]) []) in H.
  - destruct H as [H|[H _]]; [discriminate H|].
    apply Forall_cons in H as [H _]. discriminate H.
  - repeat constructor.
  - distinct_labels.
Defined.

(** ** The converter followed by the verifier *)

(** X10.  For every table of strings that the converter accepts, the
    verdict of the verifier on the converter's file is success exactly when
    every cell is not empty and contains neither one of the characters that
    [html.escape] replaces nor a carriage return; otherwise it is the
    mismatch report on the first cell, in row-major order, that is empty or
    contains such a character, with the text recovered for that cell. *)
Theorem roundtrip_verdict (df : DataFrame) :
  wf df → NoDup (clean_column_name <$> columns df) → serializable df = true →
  string_cells df = true →
  (convert_then_test df = ([], inr (true, "All data has been accurately converted!"))
   ↔ ∀ v, holds df v →
          plain (py_str v) = true
          ∧ Str.is_empty (py_str v) = false
          ∧ Str.lacks Char.CR (py_str v) = true)
  ∧ (∀ pre c post,
       cells (relabelled df) = pre ++ c :: post →
       Forall (λ c' : cell,
                 plain (py_str c'.2) = true
                 ∧ Str.is_empty (py_str c'.2) = false
                 ∧ Str.lacks Char.CR (py_str c'.2) = true) pre →
       ¬ (plain (py_str c.2) = true
          ∧ Str.is_empty (py_str c.2) = false
          ∧ Str.lacks Char.CR (py_str c.2) = true) →
       convert_then_test df
       = ([], inr (false, mismatch_message (c.1.1 + 1) c.1.2 (py_str c.2)
                            (roundtrip c.2)))).
Proof.
  intros Hwf Hnd Hser _. split; [split|].
  - intros Hok v Hv. apply roundtrip_iff.
    destruct (decide (roundtrip v = Some (py_str v))) as [|Hne]; [done|].
    destruct (some_cell_differs df v Hwf Hnd Hser Hv Hne) as [msg Hmsg].
    by rewrite Hok in Hmsg.
  - intros Hall. apply all_cells_return; [done..|].
    intros v Hv. by apply roundtrip_iff, Hall.
  - intros pre c post Hcells Hpre Hc.
    apply (first_cell_reported df pre post c); [done..| |].
    + eapply Forall_impl; [exact Hpre|]. intros c' Hc'. by apply roundtrip_iff.
    + intros Hback. by apply Hc, roundtrip_iff.
Qed.

Lemma roundtrip_verdict_witness :
  convert_then_test (mkDataFrame ["id"; "expr"] [[VStr "7"; VStr "a<b"]])
  = ([], inr (false,
       "Mismatch found in record 1 for column 'expr': 'a<b' != 'a&amp;lt;b'")).
Proof.
  refine (proj2 (roundtrip_verdict
                   (mkDataFrame ["id"; "expr"] [[VStr "7"; VStr "a<b"]])
                   _ _ eq_refl eq_refl)
            [(0, "id", VStr "7")] (0, "expr", VStr "a<b") [] eq_refl _ _).
  - repeat constructor.
  - distinct_labels.
  - repeat constructor.
  - intros (H & _). discriminate H.
Defined.

(** ** [test_conversion_accuracy] on any document *)

(** X12.  On a buffer that parses, the verifier returns True exactly when
    every cell of the table agrees with the document: the root has an
    [Item] at the index of the row, and the text recorded for the column
    name in that [Item] is the string form of the cell.  The message is then
    the fixed success message. *)
Theorem verifier_success_iff (df : DataFrame) (xml_file : BytesIO)
    (root : Element) (msg : string) :
  wf df → NoDup (columns df) →
  ET.parse (Buf.read (Buf.seek xml_file 0)) = inr root →
  test_conversion_accuracy df xml_file = inr (true, msg)
  ↔ msg = "All data has been accurately converted!"
    ∧ Forall (agrees (xml_row_of <$> ET.findall "Item" root)) (cells df).
Proof.
  intros Hwf Hnd Hparse. unfold test_conversion_accuracy. rewrite Hparse.
  unfold compare_with_root. rewrite compare_rows_cells by done. split.
  - apply scan_success_inv.
  - intros [-> Hall]. by apply scan_all_agree.
Qed.

Lemma verifier_success_iff_witness :
  test_conversion_accuracy
    (mkDataFrame ["a"; "b"] [[VStr "x"; VInt 2]])
    (mkBytesIO "<Root><Item><b>2</b><a>x</a><c>more</c></Item></Root>" 0)
  = inr (true, "All data has been accurately converted!").
Proof.
  apply (verifier_success_iff
           (mkDataFrame ["a"; "b"] [[VStr "x"; VInt 2]])
           (mkBytesIO "<Root><Item><b>2</b><a>x</a><c>more</c></Item></Root>" 0)
           (mkElement "Root" None
              [mkElement "Item" None
                 [mkElement "b" (Some "2") [] None;
                  mkElement "a" (Some "x") [] None;
                  mkElement "c" (Some "more") [] None] None] None)).
  - repeat constructor.
  - distinct_labels.
  - reflexivity.
  - split; [reflexivity|]. repeat constructor.
Defined.

(** X13.  When the document has fewer [Item] elements than the table has
    rows, the table has a column, and every cell of the rows that do have an
    [Item] agrees with the document, the verifier raises IndexError: line 91
    indexes the list of recovered rows without a check. *)
Theorem verifier_index_error (df : DataFrame) (xml_file : BytesIO) (root : Element) :
  wf df → NoDup (columns df) →
  ET.parse (Buf.read (Buf.seek xml_file 0)) = inr root →
  columns df ≠ [] →
  length (ET.findall "Item" root) < length (rows df) →
  (∀ c, c ∈ cells df → c.1.1 < length (ET.findall "Item" root) →
        agrees (xml_row_of <$> ET.findall "Item" root) c) →
  test_conversion_accuracy df xml_file = inl IndexError.
Proof.
  intros Hwf Hnd Hparse Hcols Hlen Hpre.
  unfold test_conversion_accuracy. rewrite Hparse.
  unfold compare_with_root. rewrite compare_rows_cells by done.
  apply (scan_index_error _ (length (ET.findall "Item" root)));
    [by rewrite length_fmap|done|].
  destruct (lookup_lt_is_Some_2 (rows df) (length (ET.findall "Item" root)) Hlen)
    as [r Hr].
  destruct (columns df) as [|k ks] eqn:Hk; [done|].
  destruct r as [|v r'] eqn:Hrv.
  { assert (Hin : [] ∈ rows df) by (apply list_elem_of_lookup; eauto).
    apply (rows_wf df _ Hwf) in Hin. by rewrite Hk in Hin. }
  apply Exists_exists. exists (length (ET.findall "Item" root), k, v).
  split; [|done]. eapply (plain_cell_at df _ 0); [done| |by rewrite Hk]. done.
Qed.

Lemma verifier_index_error_witness :
  test_conversion_accuracy
    (mkDataFrame ["a"] [[VStr "x"]; [VStr "y"]])
    (mkBytesIO "<Root><Item><a>x</a></Item></Root>" 0)
  = inl IndexError.
Proof.
  apply (verifier_index_error
           (mkDataFrame ["a"] [[VStr "x"]; [VStr "y"]])
           (mkBytesIO "<Root><Item><a>x</a></Item></Root>" 0)
           (mkElement "Root" None
              [mkElement "Item" None [mkElement "a" (Some "x") [] None] None] None)).
  - repeat constructor.
  - distinct_labels.
  - reflexivity.
  - discriminate.
  - vm_compute. constructor.
  - intros c Hc Hlt.
    apply elem_of_cons in Hc as [->|Hc]; [reflexivity|].
    apply list_elem_of_singleton in Hc as ->. vm_compute in Hlt. lia.
Defined.

(** X14.  The verifier looks at the [Item] children of the root only, and
    of these only at as many as the table has rows: two documents whose
    first N [Item] elements give the same recovered rows, N being the number
    of rows of the table, get the same answer, whatever else they hold. *)
Theorem verifier_ignores_surplus (df : DataFrame) (file1 file2 : BytesIO)
    (root1 root2 : Element) :
  ET.parse (Buf.read (Buf.seek file1 0)) = inr root1 →
  ET.parse (Buf.read (Buf.seek file2 0)) = inr root2 →
  take (length (rows df)) (xml_row_of <$> ET.findall "Item" root1)
  = take (length (rows df)) (xml_row_of <$> ET.findall "Item" root2) →
  test_conversion_accuracy df file1 = test_conversion_accuracy df file2.
Proof.
  intros H1 H2 Htake. unfold test_conversion_accuracy. rewrite H1, H2.
  unfold compare_with_root. apply compare_rows_ext.
  intros [i row] [j Hj]%list_elem_of_lookup.
  apply list_lookup_imap_Some in Hj as (r & Hr & [= -> ->]). cbn [fst].
  apply lookup_lt_Some in Hr.
  rewrite <- (lookup_take_lt _ (length (rows df)) j) by done.
  rewrite Htake. by rewrite lookup_take_lt.
Qed.

Lemma verifier_ignores_surplus_witness :
  test_conversion_accuracy
    (mkDataFrame ["a"] [[VStr "x"]])
    (mkBytesIO "<Root><Item><a>x</a></Item></Root>" 0)
  = test_conversion_accuracy
      (mkDataFrame ["a"] [[VStr "x"]])
      (mkBytesIO "<Root><Item><a>x</a></Item><Note>n</Note><Item><a>q</a></Item></Root>" 0).
Proof.
  apply (verifier_ignores_surplus
           (mkDataFrame ["a"] [[VStr "x"]]) _ _
           (mkElement "Root" None
              [mkElement "Item" None [mkElement "a" (Some "x") [] None] None] None)
           (mkElement "Root" None
              [mkElement "Item" None [mkElement "a" (Some "x") [] None] None;
               mkElement "Note" (Some "n") [] None;
               mkElement "Item" None [mkElement "a" (Some "q") [] None] None] None));
    reflexivity.
Defined.

(** X15.  The row recovered from an [Item] records, for a tag, the text of
    the last child with that tag, and None for a tag that no child has:
    line 85 overwrites the entry of an earlier child with the same tag. *)
Theorem xml_row_last_wins (item : Element) (key : string) :
  dict_get (xml_row_of item) key
  = match last (filter (λ child, tag child = key) (children item)) with
    | Some child => text child
    | None => None
    end.
Proof.
  destruct item as [tg tx cs tl]. unfold xml_row_of at 1. cbn [children].
  change (foldl _ ∅ cs) with (xml_row_of (mkElement "" None cs None)).
  induction cs as [|c cs IH] using rev_ind; [done|].
  rewrite dict_get_snoc, filter_app, filter_cons, filter_nil.
  destruct (decide (tag c = key)) as [Hc|Hc].
  - by rewrite last_snoc.
  - by rewrite (right_id_L [] (++)).
Qed.

(** X16.  A table without columns is verified with success against every
    buffer that parses, whatever the number of its rows and whatever the
    document holds: the inner loop has nothing to compare. *)
Theorem verifier_no_columns (df : DataFrame) (xml_file : BytesIO) (root : Element) :
  columns df = [] →
  ET.parse (Buf.read (Buf.seek xml_file 0)) = inr root →
  test_conversion_accuracy df xml_file
  = inr (true, "All data has been accurately converted!").
Proof.
  intros Hcols Hparse. unfold test_conversion_accuracy. rewrite Hparse.
  by apply compare_rows_no_columns.
Qed.

Lemma verifier_no_columns_witness :
  test_conversion_accuracy (mkDataFrame [] [[]; []]) (mkBytesIO "<Root />" 0)
  = inr (true, "All data has been accurately converted!").
Proof.
  apply (verifier_no_columns (mkDataFrame [] [[]; []]) (mkBytesIO "<Root />" 0)
           (mkElement "Root" None [] None)); reflexivity.
Defined.

(** ** [main] *)



(** ** What the file keeps *)


